(** * gpt_search.py: budget-constrained context assembly

    A shallow embedding of [src/gpt_search.py] and the properties of its
    memoized calls, token accounting, source resolution, context
    reduction and final report.

    Python values are embedded as follows.
    - [str] is [string]; [len] is [String.length], [s[:n]] is [slice_to n s].
      Characters stand for code points; no property below depends on the
      alphabet.
    - A value that may be [None] is an [option]; truthiness ([if x:],
      [not x], [x or y]) is [truthy].
    - The [background] dict is an association list in insertion order
      with the dict's assignment semantics ([dict_set]).
    - The joblib stores behind [@memory.cache] are finite maps ([gmap])
      from the call's arguments to the stored return value.
    - Global state ([gpt_query_count], the stores) and the effects on the
      outside (completion requests, searches, HTTP requests, standard
      output) live in a [world]; effectful functions run in the monad [M],
      which threads the world and may raise. *)

From Stdlib Require Import String Ascii List Arith Lia DecimalString.
From stdpp Require Import base option list gmap strings.

Local Open Scope string_scope.
Set Warnings "-abstract-large-number".

(** ** Strings *)

Module Str.

Definition nl : string := String "010"%char EmptyString.

(** [s[:n]] *)
Fixpoint slice_to (n : nat) (s : string) : string :=
  match n, s with
  | S n', String c s' => String c (slice_to n' s')
  | _, _ => EmptyString
  end.

(** [sep.join(l)] *)
Definition join (sep : string) (l : list string) : string :=
  String.concat sep l.

(** [str(n)] for a non-negative int *)
Definition of_nat (n : nat) : string :=
  NilEmpty.string_of_uint (Nat.to_uint n).

(** [f"{x}"] for a value that may be [None] *)
Definition fmt (x : option string) : string :=
  match x with
  | Some s => s
  | None => "None"
  end.

End Str.

(** ** Python truthiness *)

Class Truthy (A : Type) := truthy : A -> bool.

#[export] Instance truthy_string : Truthy string :=
  fun s => match s with EmptyString => false | _ => true end.

#[export] Instance truthy_option {A} `{Truthy A} : Truthy (option A) :=
  fun o => match o with Some a => truthy a | None => false end.

(** [x or y] *)
Definition py_or (x : option string) (y : string) : string :=
  match x with
  | Some s => if truthy s then s else y
  | None => y
  end.

(** ** Exceptions, outcomes and the world *)

Inductive exn :=
| AssertionError
| TypeError (msg : string)
| AttributeError (msg : string)
| KeyError (key : string)
| ExternalError (msg : string).

(** [str(e)] *)
Definition exn_str (e : exn) : string :=
  match e with
  | AssertionError => ""
  | TypeError msg | AttributeError msg | ExternalError msg => msg
  | KeyError key => "'" ++ key ++ "'"
  end.

(** What running a piece of code comes to: a value, an exception, or no
    answer ([Hangs]): the [while] of [shorten] used up the steps it was
    allowed, or a collaborator did not answer. *)
Inductive outcome (A : Type) :=
| Returns (a : A)
| Raises (e : exn)
| Hangs.
Arguments Returns {A} a.
Arguments Raises {A} e.
Arguments Hangs {A}.

(** One call of [print] or [pprint].  The layout [pprint] gives a tuple
    is not modelled: the event keeps the label and the dict printed. *)
Inductive output :=
| Printed (text : string)
| PPrinted (label : string) (sizes : list (string * nat)).

(** A return value of [ddg_top_hit]: [(href, title, content)]. *)
Definition hit : Type := string * option string * option string.

Record world := World {
  gpt_query_count : nat;
  gpt_cache : gmap (string * option string) string;
  ddg_top_hit_cache : gmap string (option hit);
  fetch_cache : gmap string (option string * option string);
  completions : list (string * string);
  searches_done : list string;
  fetches : list string;
  stdout : list output
}.

Definition set_gpt_query_count n w :=
  World n (gpt_cache w) (ddg_top_hit_cache w) (fetch_cache w)
        (completions w) (searches_done w) (fetches w) (stdout w).
Definition set_gpt_cache c w :=
  World (gpt_query_count w) c (ddg_top_hit_cache w) (fetch_cache w)
        (completions w) (searches_done w) (fetches w) (stdout w).
Definition set_ddg_top_hit_cache c w :=
  World (gpt_query_count w) (gpt_cache w) c (fetch_cache w)
        (completions w) (searches_done w) (fetches w) (stdout w).
Definition set_fetch_cache c w :=
  World (gpt_query_count w) (gpt_cache w) (ddg_top_hit_cache w) c
        (completions w) (searches_done w) (fetches w) (stdout w).
Definition set_completions l w :=
  World (gpt_query_count w) (gpt_cache w) (ddg_top_hit_cache w) (fetch_cache w)
        l (searches_done w) (fetches w) (stdout w).
Definition set_searches_done l w :=
  World (gpt_query_count w) (gpt_cache w) (ddg_top_hit_cache w) (fetch_cache w)
        (completions w) l (fetches w) (stdout w).
Definition set_fetches l w :=
  World (gpt_query_count w) (gpt_cache w) (ddg_top_hit_cache w) (fetch_cache w)
        (completions w) (searches_done w) l (stdout w).
Definition set_stdout l w :=
  World (gpt_query_count w) (gpt_cache w) (ddg_top_hit_cache w) (fetch_cache w)
        (completions w) (searches_done w) (fetches w) l.

(** The state of a fresh process started on the stores [g], [d], [f]
    found in the [.cache] directory. *)
Definition start (g : gmap (string * option string) string)
    (d : gmap string (option hit))
    (f : gmap string (option string * option string)) : world :=
  World 0 g d f [] [] [] [].

(** ** The monad of effectful code *)

Definition M (A : Type) : Type := world -> outcome A * world.

Definition ret {A} (a : A) : M A := fun w => (Returns a, w).

Definition bind {A B} (c : M A) (k : A -> M B) : M B :=
  fun w =>
    match c w with
    | (Returns a, w') => k a w'
    | (Raises e, w') => (Raises e, w')
    | (Hangs, w') => (Hangs, w')
    end.

Notation "x <- c ;; k" := (bind c (fun x => k))
  (at level 100, c at next level, right associativity).
Notation "c ;; k" := (bind c (fun _ => k))
  (at level 100, right associativity).

Definition raise {A} (e : exn) : M A := fun w => (Raises e, w).

Definition lift {A} (o : outcome A) : M A := fun w => (o, w).

(** [try: c  except Exception as e: handler(e)] *)
Definition try_except {A} (c : M A) (handler : exn -> M A) : M A :=
  fun w =>
    match c w with
    | (Raises e, w') => handler e w'
    | r => r
    end.

(** [assert b] *)
Definition py_assert (b : bool) : M unit :=
  if b then ret tt else raise AssertionError.

Definition when (b : bool) (c : M unit) : M unit :=
  if b then c else ret tt.

Definition print (text : string) : M unit :=
  fun w => (Returns tt, set_stdout (stdout w ++ [Printed text])%list w).

(** ** [@memory.cache] *)

(** Modelled from the spec: the decorator [memory.cache] of joblib's
    [Memory], whose code is not in [src/].  The store is looked up under
    the call's arguments; on a hit the stored value is returned and the
    function is not run; on a miss the function runs and, if it returns,
    its value is stored.  A call that raises stores nothing.  Each
    decorated function has a store of its own, given here by its getter
    and setter on the world. *)
Definition memory_cache {K V} `{Countable K}
    (store : world -> gmap K V) (set_store : gmap K V -> world -> world)
    (func : K -> M V) (args : K) : M V :=
  fun w =>
    match store w !! args with
    | Some v => (Returns v, w)
    | None =>
        match func args w with
        | (Returns v, w') => (Returns v, set_store (<[args := v]> (store w')) w')
        | r => r
        end
    end.

(** ** The collaborators

    What the program imports and calls but does not define: tiktoken,
    the OpenAI client, the DuckDuckGo search, [requests] with
    BeautifulSoup, [json] and the clock. *)

Inductive model_name := Gpt4 | Gpt35Turbo.

Definition model_str (m : model_name) : string :=
  match m with
  | Gpt4 => "gpt-4"
  | Gpt35Turbo => "gpt-3.5-turbo"
  end.

(** One search result; only ['href'] is read. *)
Record result := { href : string }.

(** A [<title>] element: [.string] is [None] unless the element holds a
    single string. *)
Record tag := { tag_string : option string }.

(** What [BeautifulSoup(response.content, 'html.parser')] exposes. *)
Record soup := {
  stripped_strings : list string;
  title : option tag
}.

Record response := {
  status_code : nat;
  content : soup
}.

Record services := {
  (** [len(tiktoken.encoding_for_model(m).encode(text))] is the length of this list *)
  encode : model_name -> string -> list nat;
  (** [openai.ChatCompletion.create(model, messages)] followed by
      [.choices[0]['message']['content']], given the requests made so far *)
  ChatCompletion_create : list (string * string) -> string -> string -> outcome string;
  (** [ddg(topic)]: the list of results, or [None] when the search has
      nothing to give *)
  ddg : string -> option (list result);
  requests_get : string -> outcome response;
  json_loads : string -> outcome (list string);
  (** [datetime.date.today().strftime('%A, %B %d, %Y')] *)
  today : string
}.

(** The namespace [parser.parse_args()] returns. *)
Record arguments := {
  gpt4 : bool;
  verbose : bool;
  question : string
}.

(** [args.model], as [main] sets it from [args.gpt4]. *)
Definition model (args : arguments) : model_name :=
  if gpt4 args then Gpt4 else Gpt35Turbo.

Definition max_token_count (m : model_name) : nat :=
  match m with
  | Gpt4 => 8192
  | Gpt35Turbo => 4097
  end.

(** ** The [background] dict *)

Definition dict : Type := list (string * option string).

Definition keys (d : dict) : list string := map fst d.

(** [d.get(k)]: [None] when the key is absent *)
Fixpoint dict_get (k : string) (d : dict) : option (option string) :=
  match d with
  | [] => None
  | (k', v) :: d' => if String.eqb k k' then Some v else dict_get k d'
  end.

(** [d[k]] *)
Definition dict_getitem (k : string) (d : dict) : outcome (option string) :=
  match dict_get k d with
  | Some v => Returns v
  | None => Raises (KeyError k)
  end.

(** [d[k] = v]: a present key keeps its place, a new one goes last *)
Fixpoint dict_set (k : string) (v : option string) (d : dict) : dict :=
  match d with
  | [] => [(k, v)]
  | (k', v') :: d' =>
      if String.eqb k k' then (k', v) :: d' else (k', v') :: dict_set k v d'
  end.

(** [int(n * .9)].  Python takes the product in double precision and
    truncates it; for every length a text can have (any [n] below 2^49)
    the result is the integer quotient of [9 * n] by [10], which is what
    this definition computes. *)
Definition int_mul_09 (n : nat) : nat := (9 * n) / 10.

(** ** The program *)

Section Program.

Context (srv : services) (args : arguments).

(** The decorated function's body; the arguments come as the pair the
    store is keyed by. *)
Definition gpt_body (a : string * option string) : M string :=
  let (prompt, model_arg) := a in
  py_assert (25 <? String.length prompt)%nat ;;
  (fun w => (Returns tt, set_gpt_query_count (gpt_query_count w + 1) w)) ;;
  (fun w =>
     let m := py_or model_arg (model_str (model args)) in
     (ChatCompletion_create srv (completions w) m prompt,
      set_completions (completions w ++ [(m, prompt)])%list w)).

Definition gpt (prompt : string) (model_arg : option string) : M string :=
  memory_cache gpt_cache set_gpt_cache gpt_body (prompt, model_arg).

Definition token_count (text : string) : nat :=
  length (encode srv (model args) text) * 2.

Definition background_text (background : dict) : string :=
  Str.join (Str.nl ++ Str.nl)
    (map (fun item => fst item ++ ":" ++ Str.nl ++ Str.fmt (snd item))
         background).

(** [text[:int(len(text) * .9)]] *)
Definition cut90 (text : string) : string :=
  Str.slice_to (int_mul_09 (String.length text)) text.

(** The [while] of [shorten] for one subject, at most [fuel] tests. *)
Fixpoint shorten_while (fuel : nat) (subject : string) (background : dict)
    : outcome dict :=
  match fuel with
  | 0 => Hangs
  | S fuel' =>
      match dict_get subject background with
      | None => Raises (KeyError subject)
      | Some None => Raises (TypeError "expected string or buffer")
      | Some (Some text) =>
          if (max_token_count (model args) <? token_count text)%nat
          then shorten_while fuel' subject
                 (dict_set subject (Some (cut90 text)) background)
          else Returns background
      end
  end.

Fixpoint shorten_for (fuel : nat) (subjects : list string) (background : dict)
    : outcome dict :=
  match subjects with
  | [] => Returns background
  | subject :: rest =>
      match dict_get subject background with
      | None => Raises (KeyError subject)
      | Some v =>
          if negb (truthy v) then shorten_for fuel rest background
          else
            match shorten_while fuel subject background with
            | Returns background' => shorten_for fuel rest background'
            | r => r
            end
      end
  end.

Definition shorten (fuel : nat) (background : dict) : outcome dict :=
  shorten_for fuel (keys background) background.

Definition summarize_prompt (subject text : string) : string :=
  "Concisely summarize the facts about " ++ subject ++ ":" ++ Str.nl ++ text.

Fixpoint summarize_for (subjects : list string) (background : dict) : M dict :=
  match subjects with
  | [] => ret background
  | subject :: rest =>
      v <- lift (dict_getitem subject background) ;;
      match v with
      | None => summarize_for rest background
      | Some text =>
          if negb (truthy text) then summarize_for rest background
          else if (token_count (background_text background)
                     <=? max_token_count (model args))%nat
          then ret background
          else
            summary <- gpt (summarize_prompt subject text) None ;;
            summarize_for rest (dict_set subject (Some summary) background)
      end
  end.

Definition summarize (background : dict) : M dict :=
  summarize_for (keys background) background.

(** [soup.title.string] *)
Definition title_string (s : soup) : M (option string) :=
  match title s with
  | Some t => ret (tag_string t)
  | None => raise (AttributeError "'NoneType' object has no attribute 'string'")
  end.

Definition fetch_body (url : string) : M (option string * option string) :=
  try_except
    (response <- (fun w => (requests_get srv url, set_fetches (fetches w ++ [url])%list w)) ;;
     if (status_code response =? 200)%nat then
       let soup := content response in
       let text := Str.join " " (stripped_strings soup) in
       title <- title_string soup ;;
       ret (title, Some text)
     else
       print ("Error fetching " ++ url ++ ": " ++ Str.of_nat (status_code response)) ;;
       ret (None, None))
    (fun e =>
       print ("Error fetching " ++ url ++ ": " ++ exn_str e) ;;
       ret (None, None)).

Definition fetch_url_and_extract_info (url : string)
    : M (option string * option string) :=
  memory_cache fetch_cache set_fetch_cache fetch_body url.

Fixpoint ddg_top_hit_for (results : list result) : M (option hit) :=
  match results with
  | [] => ret None
  | result :: rest =>
      when (verbose args) (print ("  Fetching " ++ href result)) ;;
      info <- fetch_url_and_extract_info (href result) ;;
      if truthy (snd info)
      then ret (Some (href result, fst info, snd info))
      else ddg_top_hit_for rest
  end.

Definition ddg_top_hit_body (topic : string) : M (option hit) :=
  when (verbose args) (print ("Search DDG for: " ++ topic)) ;;
  results <- (fun w => (Returns (ddg srv topic),
                        set_searches_done (searches_done w ++ [topic])%list w)) ;;
  match results with
  | Some results => ddg_top_hit_for results
  | None => raise (TypeError "'NoneType' object is not iterable")
  end.

Definition ddg_top_hit (topic : string) : M (option hit) :=
  memory_cache ddg_top_hit_cache set_ddg_top_hit_cache ddg_top_hit_body topic.

(** [source, title, content = h] *)
Definition unpack (h : option hit) : M hit :=
  match h with
  | Some t => ret t
  | None => raise (TypeError "cannot unpack non-iterable NoneType object")
  end.

Definition sources_list : Type := list (string * option string).

Fixpoint resolve_for (searches : list string) (background : dict)
    (sources : sources_list) : M (dict * sources_list) :=
  match searches with
  | [] => ret (background, sources)
  | search :: rest =>
      h <- ddg_top_hit search ;;
      t <- unpack h ;;
      let source := fst (fst t) in
      let title := snd (fst t) in
      let content := snd t in
      resolve_for rest (dict_set search content background)
                  (sources ++ [(source, title)])%list
  end.

(** [{search : len(content) for search, content in background.items()}] *)
Fixpoint sizes (background : dict) : outcome (list (string * nat)) :=
  match background with
  | [] => Returns []
  | (search, Some content) :: rest =>
      match sizes rest with
      | Returns l => Returns ((search, String.length content) :: l)
      | r => r
      end
  | (_, None) :: _ => Raises (TypeError "object of type 'NoneType' has no len()")
  end.

Definition pprint_sizes (label : string) (background : dict) : M unit :=
  l <- lift (sizes background) ;;
  (fun w => (Returns tt, set_stdout (stdout w ++ [PPrinted label l])%list w)).

Definition citation (entry : string * option string) : string :=
  "* [" ++ Str.fmt (snd entry) ++ "](" ++ fst entry ++ ")".

Fixpoint print_sources (sources : sources_list) : M unit :=
  match sources with
  | [] => ret tt
  | entry :: rest => print (citation entry) ;; print_sources rest
  end.

Definition trailer (count : nat) : string :=
  "(" ++ model_str (model args) ++ ", " ++ Str.of_nat count ++ " queries)".

Definition main (fuel : nat) : M unit :=
  let today_prompt := "Today is " ++ today srv ++ "." in
  let search_prompt :=
    today_prompt ++ Str.nl ++ Str.nl ++
    "I want to know: " ++ question args ++ Str.nl ++ Str.nl ++
    "What 3 search topics would help you answer this " ++
    "question? Answer in a JSON list only." in
  search_text <- gpt search_prompt None ;;
  searches <- lift (json_loads srv search_text) ;;
  bs <- resolve_for searches [] [] ;;
  let background := fst bs in
  let sources := snd bs in
  when (verbose args) (pprint_sizes "fetched:" background) ;;
  background <- lift (shorten fuel background) ;;
  when (verbose args) (pprint_sizes "shortened:" background) ;;
  background <- summarize background ;;
  when (verbose args) (pprint_sizes "summarized:" background) ;;
  answer <- gpt (background_text background ++ Str.nl ++ Str.nl ++
                 today_prompt ++ Str.nl ++ Str.nl ++ question args) None ;;
  print answer ;;
  (fun w => print (trailer (gpt_query_count w)) w) ;;
  print "" ;;
  print "Sources:" ;;
  print_sources sources.

End Program.

(** ** Stand-ins for the collaborators

    Small, total collaborators to run the program on: a tokenizer with
    one token per character, a completion service that answers a
    summarization prompt with the first half of the text after the
    prompt's first line, and a web of a few pages. *)

Module Demo.

Fixpoint chars (text : string) : list nat :=
  match text with
  | EmptyString => []
  | String c text' => nat_of_ascii c :: chars text'
  end.

(** What follows the first newline of [text]; [""] if there is none. *)
Fixpoint after_line (text : string) : string :=
  match text with
  | EmptyString => EmptyString
  | String c text' =>
      if Ascii.eqb c "010"%char then text' else after_line text'
  end.

Definition half (text : string) : string :=
  Str.slice_to (String.length text / 2) text.

Definition page (t : option tag) (strings : list string) : outcome response :=
  Returns {| status_code := 200;
             content := {| stripped_strings := strings; title := t |} |}.

Definition web (url : string) : outcome response :=
  if String.eqb url "http://a/1" then page None ["text"; "without"; "title"]
  else if String.eqb url "http://a/2" then
    Returns {| status_code := 404;
               content := {| stripped_strings := []; title := None |} |}
  else if String.eqb url "http://a/3" then
    page (Some {| tag_string := Some "Third" |}) ["third"; "page"]
  else if String.eqb url "http://a/4" then
    page (Some {| tag_string := Some "Fourth" |}) ["fourth"; "page"]
  else if String.eqb url "http://c/1" then
    page (Some {| tag_string := None |}) ["untitled"; "page"]
  else Raises (ExternalError "connection refused").

Definition search (topic : string) : option (list result) :=
  if String.eqb topic "A" then
    Some [ {| href := "http://a/1" |}; {| href := "http://a/2" |};
           {| href := "http://a/3" |}; {| href := "http://a/4" |} ]
  else if String.eqb topic "B" then
    Some [ {| href := "http://a/1" |}; {| href := "http://a/2" |} ]
  else if String.eqb topic "C" then Some [ {| href := "http://c/1" |} ]
  else None.

Definition services (topics : list string) : services := {|
  encode := fun _ text => chars text;
  ChatCompletion_create := fun _ _ prompt => Returns (half (after_line prompt));
  ddg := search;
  requests_get := web;
  json_loads := fun _ => Returns topics;
  today := "Tuesday, November 03, 2026"
|}.

Definition args : arguments :=
  {| gpt4 := false; verbose := false; question := "What is on page three?" |}.

(** [c * n] for a one-character string [c] *)
Fixpoint times (c : ascii) (n : nat) : string :=
  match n with
  | 0 => EmptyString
  | S n' => String c (times c n')
  end.

(** A fresh process on empty stores. *)
Definition fresh : world := start ∅ ∅ ∅.

Definition three_long_texts : dict :=
  [("A", Some (times "a" 2000));
   ("B", Some (times "b" 2000));
   ("C", Some (times "c" 2000))].

Definition three_summaries : dict :=
  [("A", Some (times "a" 1000));
   ("B", Some (times "b" 1000));
   ("C", Some (times "c" 1000))].

End Demo.

(** ** Vocabulary of the properties *)

Section Vocabulary.

Context (srv : services) (args : arguments).

(** The tokenizer gives the empty text no token. *)
Definition encode_empty : Prop := encode srv (model args) "" = [].

(** [text'] is what [n] passes of the [while] of [shorten] leave of
    [text]: each pass found the estimate above the ceiling and kept the
    first 90% of the characters (nine tenths of the length, rounded
    down), a strictly shorter text. *)
Definition cuts (n : nat) (text text' : string) : Prop :=
  text' = Nat.iter n cut90 text /\
  forall i, i < n ->
    max_token_count (model args) < token_count srv args (Nat.iter i cut90 text) /\
    String.length (Nat.iter (S i) cut90 text)
      = 9 * String.length (Nat.iter i cut90 text) / 10 /\
    String.length (Nat.iter (S i) cut90 text)
      < String.length (Nat.iter i cut90 text).

(** How [shorten] changes the value under one key. *)
Definition shortened (o o' : option (option string)) : Prop :=
  match o with
  | Some (Some text) => exists n text', o' = Some (Some text') /\ cuts n text text'
  | _ => o' = o
  end.

End Vocabulary.

(** How the world may change while the program runs: the stores only
    gain entries, the logs of effects only grow at the end, the counter
    grows by the number of completion requests made, and every request
    made and every entry gained by the store of [gpt] has a prompt of
    more than 25 characters. *)
Record evolves (w w' : world) : Prop := Evolves {
  ev_gpt_cache : gpt_cache w ⊆ gpt_cache w';
  ev_ddg_top_hit_cache : ddg_top_hit_cache w ⊆ ddg_top_hit_cache w';
  ev_fetch_cache : fetch_cache w ⊆ fetch_cache w';
  ev_completions :
    exists l, completions w' = (completions w ++ l)%list /\
              gpt_query_count w' = gpt_query_count w + length l /\
              Forall (fun r => 25 < String.length (snd r)) l;
  ev_new_keys :
    forall k, gpt_cache w !! k = None -> is_Some (gpt_cache w' !! k) ->
              25 < String.length (fst k);
  ev_searches_done : searches_done w `prefix_of` searches_done w';
  ev_fetches : fetches w `prefix_of` fetches w';
  ev_stdout : stdout w `prefix_of` stdout w'
}.

(** A piece of code that, whatever it comes to, changes the world only
    as the relation [R] allows. *)
Definition respects {A} (R : world -> world -> Prop) (c : M A) : Prop :=
  forall w, R w (snd (c w)).

Abbreviation preserves := (respects evolves).

(** The worlds agree on what [proj] reads. *)
Definition same {B} (proj : world -> B) (w w' : world) : Prop := proj w' = proj w.

(** The store of [gpt] holds no prompt that the assertion refuses. *)
Definition gpt_cache_sound (w : world) : Prop :=
  forall k, is_Some (gpt_cache w !! k) -> 25 < String.length (fst k).

Section Resolution.

Context (srv : services).

(** What the body of [fetch_url_and_extract_info] returns for [url]:
    it depends on the answer to the request only. *)
Definition extract_info (url : string) : outcome (option string * option string) :=
  match requests_get srv url with
  | Returns response =>
      if (status_code response =? 200)%nat then
        match title (content response) with
        | Some t =>
            Returns (tag_string t,
                     Some (Str.join " " (stripped_strings (content response))))
        | None => Returns (None, None)
        end
      else Returns (None, None)
  | Raises _ => Returns (None, None)
  | Hangs => Hangs
  end.

(** What [fetch_url_and_extract_info url] comes to in the world [w]:
    the stored value if there is one, the body's otherwise. *)
Definition fetch_result (w : world) (url : string)
    : outcome (option string * option string) :=
  match fetch_cache w !! url with
  | Some v => Returns v
  | None => extract_info url
  end.

(** The candidate [r] has no text in the world [w]. *)
Definition no_text (w : world) (r : result) : Prop :=
  exists t c, fetch_result w (href r) = Returns (t, c) /\ truthy c = false.

(** The request for [url] fails: it raises or its status is not 200. *)
Definition fetch_fails (url : string) : Prop :=
  (exists e, requests_get srv url = Raises e) \/
  (exists response, requests_get srv url = Returns response /\
                    status_code response <> 200).

End Resolution.

(** The entry of the Sources list has a title. *)
Definition has_title (entry : string * option string) : bool :=
  match snd entry with Some _ => true | None => false end.

(** [resolves srv args searches w sources w']: going through the
    topics [searches] in order from the world [w], each call of
    [ddg_top_hit], made in the world the call before left, returns a
    hit; [sources] holds the origin and the title of these hits in the
    order of the topics, and [w'] is the world after the last call. *)
Inductive resolves (srv : services) (args : arguments)
    : list string -> world -> list (string * option string) -> world -> Prop :=
| resolves_nil w : resolves srv args [] w [] w
| resolves_cons search rest w source title content w1 sources w' :
    ddg_top_hit srv args search w = (Returns (Some (source, title, content)), w1) ->
    resolves srv args rest w1 sources w' ->
    resolves srv args (search :: rest) w ((source, title) :: sources) w'.

Definition cite (entry : string * option string) : output := Printed (citation entry).

(** The value under a key needs no cut: it is absent, empty, or a text
    whose estimate is at most the ceiling. *)
Definition settled (srv : services) (args : arguments)
    (o : option (option string)) : Prop :=
  match o with
  | Some (Some text) =>
      truthy text = true ->
      token_count srv args text <= max_token_count (model args)
  | _ => True
  end.

(** The prompt of the first completion of [main], asking for the topics. *)
Definition search_prompt (srv : services) (args : arguments) : string :=
  ("Today is " ++ today srv ++ ".") ++ Str.nl ++ Str.nl ++
  "I want to know: " ++ question args ++ Str.nl ++ Str.nl ++
  "What 3 search topics would help you answer this " ++
  "question? Answer in a JSON list only.".

(** More stand-ins: a completion service that is out of order, a parser
    that refuses the completion, a run with the other model. *)
Module Cases.

Definition no_completion : services := {|
  encode := encode (Demo.services []);
  ChatCompletion_create := fun _ _ _ => Raises (ExternalError "rate limit reached");
  ddg := Demo.search;
  requests_get := Demo.web;
  json_loads := json_loads (Demo.services []);
  today := today (Demo.services [])
|}.

Definition no_json : services := {|
  encode := encode (Demo.services []);
  ChatCompletion_create := ChatCompletion_create (Demo.services []);
  ddg := Demo.search;
  requests_get := Demo.web;
  json_loads := fun _ => Raises (ExternalError "Expecting value: line 1 column 1 (char 0)");
  today := today (Demo.services [])
|}.

(** Two topics, each with one page of 3000 characters. *)
Definition long_pages : services := {|
  encode := encode (Demo.services []);
  ChatCompletion_create := ChatCompletion_create (Demo.services []);
  ddg := fun topic =>
    if String.eqb topic "L" then Some [ {| href := "http://l/1" |} ]
    else if String.eqb topic "M" then Some [ {| href := "http://m/1" |} ]
    else None;
  requests_get := fun url =>
    if String.eqb url "http://l/1" then
      Demo.page (Some {| tag_string := Some "Long one" |}) [Demo.times "l" 3000]
    else if String.eqb url "http://m/1" then
      Demo.page (Some {| tag_string := Some "Long two" |}) [Demo.times "m" 3000]
    else Raises (ExternalError "connection refused");
  json_loads := fun _ => Returns ["L"; "M"];
  today := today (Demo.services [])
|}.

Definition args_gpt4 : arguments :=
  {| gpt4 := true; verbose := false; question := question Demo.args |}.

Definition mixed_texts : dict :=
  [("A", Some "short text"); ("B", None); ("C", Some "")].

Definition long_and_empty : dict :=
  [("A", Some (Demo.times "a" 3000)); ("B", None); ("C", Some "")].

Definition long_and_empty_summarized : dict :=
  [("A", Some (Demo.times "a" 1500)); ("B", None); ("C", Some "")].

End Cases.

(** The completion requests that summarizing [subjects], in this order,
    asks for when none is in the store: one for each subject that has
    text in [background], with the active model and the summarization
    prompt of that text. *)
Definition summarize_requests (args : arguments) (subjects : list string)
    (background : dict) : list (string * string) :=
  flat_map
    (fun subject =>
       match dict_get subject background with
       | Some (Some text) =>
           if truthy text
           then [((if gpt4 args then "gpt-4" else "gpt-3.5-turbo"),
                  "Concisely summarize the facts about " ++ subject ++ ":"
                  ++ Str.nl ++ text)]
           else []
       | _ => []
       end)
    subjects.

(** * Properties *)

(** ** Strings *)

Module StrFacts.
Import Str.

Lemma slice_to_length n s :
  String.length (slice_to n s) = Nat.min n (String.length s).
Proof.
  revert s; induction n as [|n IH]; intros [|c s]; simpl; auto.
Qed.

Lemma slice_to_prefix n s : String.prefix (slice_to n s) s = true.
Proof.
  revert s; induction n as [|n IH]; intros [|c s]; simpl; auto.
  destruct (ascii_dec c c); [apply IH | congruence].
Qed.

Lemma prefix_refl s : String.prefix s s = true.
Proof.
  induction s as [|c s IH]; simpl; auto.
  destruct (ascii_dec c c); [apply IH | congruence].
Qed.

Lemma prefix_trans s1 s2 s3 :
  String.prefix s1 s2 = true -> String.prefix s2 s3 = true ->
  String.prefix s1 s3 = true.
Proof.
  revert s2 s3; induction s1 as [|a s1 IH]; intros [|b s2] [|c s3];
    simpl; auto; try discriminate.
  destruct (ascii_dec a b), (ascii_dec b c); try discriminate.
  subst. destruct (ascii_dec c c); [apply IH | congruence].
Qed.

Lemma slice_to_all n s : String.length s <= n -> slice_to n s = s.
Proof.
  revert s; induction n as [|n IH]; intros [|c s]; simpl; auto;
    intros Hl; [lia|]. f_equal. apply IH. lia.
Qed.

Lemma length_zero s : String.length s = 0 -> s = "".
Proof. destruct s; simpl; [reflexivity | discriminate]. Qed.

Lemma truthy_length (s : string) : truthy s = true <-> 0 < String.length s.
Proof. destruct s; simpl; split; intros; try lia; try discriminate; auto. Qed.

Lemma int_mul_09_lt n : 0 < n -> int_mul_09 n < n.
Proof.
  intros Hn. unfold int_mul_09.
  apply Nat.Div0.div_lt_upper_bound. lia.
Qed.

Lemma int_mul_09_le n : int_mul_09 n <= n.
Proof.
  destruct n; [reflexivity|]. apply Nat.lt_le_incl, int_mul_09_lt. lia.
Qed.

End StrFacts.

(** ** The dict *)

Module DictFacts.

Lemma eqb_eq_dec (a b : string) :
  {a = b /\ String.eqb a b = true} + {a <> b /\ String.eqb a b = false}.
Proof.
  destruct (String.eqb a b) eqn:E.
  - left. split; [now apply String.eqb_eq | reflexivity].
  - right. split; [now apply String.eqb_neq | reflexivity].
Qed.

Lemma get_set_eq k v d : dict_get k (dict_set k v d) = Some v.
Proof.
  induction d as [|[k' v'] d IH]; simpl.
  - now rewrite String.eqb_refl.
  - destruct (String.eqb k k') eqn:E; simpl; rewrite E; auto.
Qed.

Lemma get_set_ne k k' v d :
  k <> k' -> dict_get k' (dict_set k v d) = dict_get k' d.
Proof.
  intros Hne. induction d as [|[k0 v0] d IH]; simpl.
  - destruct (eqb_eq_dec k' k) as [[-> _]|[_ ->]]; [congruence | reflexivity].
  - destruct (eqb_eq_dec k k0) as [[-> E]|[Hk E]]; rewrite E; simpl.
    + destruct (eqb_eq_dec k' k0) as [[-> _]|[_ ->]]; [congruence | reflexivity].
    + now rewrite IH.
Qed.

Lemma keys_set_present k v d :
  dict_get k d <> None -> keys (dict_set k v d) = keys d.
Proof.
  induction d as [|[k' v'] d IH]; simpl; [congruence|].
  destruct (String.eqb k k') eqn:E; simpl; intros H; [reflexivity|].
  f_equal. apply IH, H.
Qed.

Lemma set_same k v d : dict_get k d = Some v -> dict_set k v d = d.
Proof.
  induction d as [|[k' v'] d IH]; simpl; [discriminate|].
  destruct (eqb_eq_dec k k') as [[-> E]|[Hk E]]; rewrite E.
  - now intros [= ->].
  - intros H. now rewrite IH.
Qed.

Lemma set_set k v v' d : dict_set k v' (dict_set k v d) = dict_set k v' d.
Proof.
  induction d as [|[k' v0] d IH]; simpl.
  - now rewrite String.eqb_refl.
  - destruct (String.eqb k k') eqn:E; simpl; rewrite E; [reflexivity|].
    now rewrite IH.
Qed.

Lemma get_in_keys k d : In k (keys d) -> dict_get k d <> None.
Proof.
  induction d as [|[k' v'] d IH]; simpl; [tauto|].
  destruct (eqb_eq_dec k k') as [[-> E]|[Hk E]]; rewrite E; [discriminate|].
  intros [H|H]; [congruence | now apply IH].
Qed.

End DictFacts.

(** ** Truncation: [shorten] *)

Section Shorten.

Context (srv : services) (args : arguments).

Abbreviation ceiling := (max_token_count (model args)).
Abbreviation tokens := (token_count srv args).
Abbreviation cuts := (cuts srv args).
Abbreviation shortened := (shortened srv args).
Abbreviation encode_empty := (encode_empty srv args).

Lemma cut90_length text : String.length (cut90 text) <= String.length text.
Proof.
  unfold cut90. rewrite StrFacts.slice_to_length. lia.
Qed.

Lemma cut90_shrinks text :
  0 < String.length text -> String.length (cut90 text) < String.length text.
Proof.
  intros H. unfold cut90. rewrite StrFacts.slice_to_length.
  pose proof (StrFacts.int_mul_09_lt _ H). lia.
Qed.

Lemma cut90_length_eq text :
  String.length (cut90 text) = 9 * String.length text / 10.
Proof.
  unfold cut90. rewrite StrFacts.slice_to_length.
  pose proof (StrFacts.int_mul_09_le (String.length text)) as Hle.
  unfold int_mul_09 in *. lia.
Qed.

Lemma iter_cut90_length_eq n text :
  String.length (Nat.iter n cut90 text)
  = Nat.iter n (fun len => 9 * len / 10) (String.length text).
Proof.
  induction n as [|n IH]; [reflexivity|].
  change (String.length (cut90 (Nat.iter n cut90 text))
          = 9 * Nat.iter n (fun len => 9 * len / 10) (String.length text) / 10).
  now rewrite cut90_length_eq, IH.
Qed.

Lemma cut90_prefix text : String.prefix (cut90 text) text = true.
Proof. apply StrFacts.slice_to_prefix. Qed.

Lemma iter_cut90_prefix n text :
  String.prefix (Nat.iter n cut90 text) text = true.
Proof.
  induction n as [|n IH]; simpl.
  - apply StrFacts.prefix_refl.
  - eapply StrFacts.prefix_trans; [apply cut90_prefix | exact IH].
Qed.

Lemma iter_cut90_length n text :
  String.length (Nat.iter n cut90 text) <= String.length text.
Proof.
  induction n as [|n IH]; simpl; [lia|].
  pose proof (cut90_length (Nat.iter n cut90 text)). lia.
Qed.

Lemma iter_cut90_shift n text :
  Nat.iter n cut90 (cut90 text) = Nat.iter (S n) cut90 text.
Proof.
  induction n as [|n IH]; simpl; [reflexivity|]. now rewrite IH.
Qed.

Lemma over_ceiling_nonempty text :
  encode_empty -> ceiling < tokens text -> 0 < String.length text.
Proof.
  intros He Hover. destruct text as [|c text]; simpl; [|lia].
  unfold token_count in Hover. rewrite He in Hover. simpl in Hover. lia.
Qed.

Lemma shorten_while_spec fuel : forall subject text background,
  encode_empty ->
  dict_get subject background = Some (Some text) ->
  String.length text < fuel ->
  exists n text',
    shorten_while srv args fuel subject background
      = Returns (dict_set subject (Some text') background) /\
    cuts n text text' /\ tokens text' <= ceiling.
Proof.
  induction fuel as [|fuel IH]; intros subject text background He Hget Hlen;
    [lia|].
  simpl. rewrite Hget.
  destruct (ceiling <? tokens text)%nat eqn:Hover.
  - apply Nat.ltb_lt in Hover.
    pose proof (over_ceiling_nonempty _ He Hover) as Hpos.
    pose proof (cut90_shrinks _ Hpos) as Hshrink.
    destruct (IH subject (cut90 text)
                (dict_set subject (Some (cut90 text)) background) He)
      as (n & text' & Hrun & [Heq Hsteps] & Hfit).
    + apply DictFacts.get_set_eq.
    + lia.
    + exists (S n), text'. rewrite Hrun, DictFacts.set_set.
      split; [reflexivity|]. split; [|exact Hfit].
      split; [now rewrite <- iter_cut90_shift|].
      intros [|i] Hi.
      * simpl. split; [exact Hover|].
        split; [apply cut90_length_eq | exact Hshrink].
      * specialize (Hsteps i ltac:(lia)).
        rewrite (iter_cut90_shift (S i) text), (iter_cut90_shift i text) in Hsteps.
        exact Hsteps.
  - apply Nat.ltb_ge in Hover. exists 0, text.
    rewrite (DictFacts.set_same _ _ _ Hget).
    split; [reflexivity|]. split; [|exact Hover].
    split; [reflexivity | intros i Hi; lia].
Qed.

Lemma cuts_refl text : cuts 0 text text.
Proof. split; [reflexivity | intros i Hi; lia]. Qed.

Lemma cuts_trans n m a b c : cuts n a b -> cuts m b c -> cuts (m + n) a c.
Proof.
  intros [-> Hn] [-> Hm]. split.
  - now rewrite Nat.iter_add.
  - intros i Hi. destruct (Nat.lt_ge_cases i n) as [Hlt|Hge].
    + apply Hn, Hlt.
    + replace i with ((i - n) + n) by lia.
      replace (S (i - n + n)) with (S (i - n) + n) by lia.
      rewrite !Nat.iter_add. apply Hm. lia.
Qed.

Lemma cuts_fit n text text' :
  cuts n text text' -> tokens text <= ceiling -> text' = text.
Proof.
  intros [-> Hn] Hfit. destruct n as [|n]; [reflexivity|].
  destruct (Hn 0 ltac:(lia)) as [Hover _]. simpl in Hover. lia.
Qed.

Lemma cuts_length n text text' :
  cuts n text text' -> String.length text' <= String.length text.
Proof. intros [-> _]. apply iter_cut90_length. Qed.

Lemma cuts_prefix n text text' :
  cuts n text text' -> String.prefix text' text = true.
Proof. intros [-> _]. apply iter_cut90_prefix. Qed.

Lemma shortened_refl o : shortened o o.
Proof.
  destruct o as [[text|]|]; simpl; auto.
  exists 0, text. split; [reflexivity | apply cuts_refl].
Qed.

Lemma tokens_empty : encode_empty -> tokens "" <= ceiling.
Proof. intros He. unfold token_count. rewrite He. simpl. lia. Qed.

Lemma shorten_for_spec fuel : forall subjects background,
  encode_empty ->
  (forall k, In k subjects -> dict_get k background <> None) ->
  (forall k text, dict_get k background = Some (Some text) ->
                  String.length text < fuel) ->
  exists background',
    shorten_for srv args fuel subjects background = Returns background' /\
    keys background' = keys background /\
    (forall k, shortened (dict_get k background) (dict_get k background')) /\
    (forall k text', In k subjects ->
       dict_get k background' = Some (Some text') -> tokens text' <= ceiling).
Proof.
  induction subjects as [|subject rest IH]; intros background He Hin Hfuel.
  - exists background. repeat split; auto using shortened_refl.
    intros k text' [].
  - assert (Hstep : exists background1,
               (forall k, In k rest -> dict_get k background1 <> None) /\
               (forall k text, dict_get k background1 = Some (Some text) ->
                               String.length text < fuel) /\
               keys background1 = keys background /\
               (forall k, shortened (dict_get k background) (dict_get k background1)) /\
               (forall text, dict_get subject background1 = Some (Some text) ->
                             tokens text <= ceiling) /\
               shorten_for srv args fuel (subject :: rest) background
                 = shorten_for srv args fuel rest background1).
    { simpl. destruct (dict_get subject background) as [v|] eqn:Hget;
        [|exfalso; apply (Hin subject); [now left | exact Hget]].
      destruct (truthy v) eqn:Htruthy; simpl.
      - destruct v as [text|]; [|discriminate].
        destruct (shorten_while_spec fuel subject text background He Hget
                    (Hfuel _ _ Hget))
          as (n & text1 & Hrun & Hcuts & Hfit).
        exists (dict_set subject (Some text1) background).
        rewrite Hrun.
        assert (Hget1 : forall k, k <> subject ->
                  dict_get k (dict_set subject (Some text1) background)
                  = dict_get k background).
        { intros k Hk. apply DictFacts.get_set_ne. congruence. }
        repeat split.
        + intros k Hk. destruct (string_dec k subject) as [->|Hne].
          * rewrite DictFacts.get_set_eq. discriminate.
          * rewrite Hget1 by exact Hne. apply Hin. now right.
        + intros k text0. destruct (string_dec k subject) as [->|Hne].
          * rewrite DictFacts.get_set_eq. intros [= <-].
            pose proof (cuts_length _ _ _ Hcuts). specialize (Hfuel _ _ Hget). lia.
          * rewrite Hget1 by exact Hne. apply Hfuel.
        + apply DictFacts.keys_set_present. congruence.
        + intros k. destruct (string_dec k subject) as [->|Hne].
          * rewrite DictFacts.get_set_eq, Hget. simpl. eauto.
          * rewrite Hget1 by exact Hne. apply shortened_refl.
        + rewrite DictFacts.get_set_eq. now intros text0 [= <-].
      - exists background. repeat split; auto using shortened_refl.
        + intros k Hk. apply Hin. now right.
        + rewrite Hget. intros text [= ->].
          destruct text; [now apply tokens_empty | discriminate]. }
    destruct Hstep as (background1 & Hin1 & Hfuel1 & Hkeys1 & Hrel1 & Hfit1 & ->).
    destruct (IH background1 He Hin1 Hfuel1) as (background' & Hrun & Hkeys & Hrel & Hfit).
    exists background'. split; [exact Hrun|]. split; [congruence|]. split.
    + intros k. specialize (Hrel1 k). specialize (Hrel k).
      destruct (dict_get k background) as [[text|]|]; simpl in *.
      * destruct Hrel1 as (n & text1 & E1 & Hc1). rewrite E1 in Hrel. simpl in Hrel.
        destruct Hrel as (m & text2 & E2 & Hc2).
        exists (m + n), text2. split; [exact E2 | eapply cuts_trans; eassumption].
      * rewrite Hrel1 in Hrel. exact Hrel.
      * rewrite Hrel1 in Hrel. exact Hrel.
    + intros k text' [<-|Hk] Hget'; [|eapply Hfit; eassumption].
      specialize (Hrel subject).
      destruct (dict_get subject background1) as [[text1|]|] eqn:Hget1; simpl in Hrel.
      * destruct Hrel as (m & text2 & E2 & Hc2).
        rewrite Hget' in E2. injection E2 as <-.
        rewrite (cuts_fit _ _ _ Hc2); apply Hfit1; reflexivity.
      * congruence.
      * congruence.
Qed.

Lemma get_some_in_keys k v (d : dict) : dict_get k d = Some v -> In k (keys d).
Proof.
  induction d as [|[k' v'] d IH]; simpl; [discriminate|].
  destruct (DictFacts.eqb_eq_dec k k') as [[-> E]|[Hk E]]; rewrite E; auto.
Qed.

(** C4.  Given enough steps for the longest text, [shorten] returns;
    the keys are unchanged and every text has been replaced by what a
    number of 90% cuts leave of it: each cut was made because the
    estimate was above the ceiling and kept nine tenths of the
    characters (rounded down), a strictly shorter text; the text left
    is the prefix of the original of the length these cuts give, and
    its estimate is at most the ceiling. *)
Theorem shorten_cuts_to_fitting_prefix fuel background :
  encode_empty ->
  (forall k text, dict_get k background = Some (Some text) ->
                  String.length text < fuel) ->
  exists background',
    shorten srv args fuel background = Returns background' /\
    keys background' = keys background /\
    forall subject text,
      dict_get subject background = Some (Some text) ->
      exists n text',
        dict_get subject background' = Some (Some text') /\
        cuts n text text' /\
        String.prefix text' text = true /\
        String.length text'
          = Nat.iter n (fun len => 9 * len / 10) (String.length text) /\
        tokens text' <= ceiling.
Proof.
  intros He Hfuel.
  destruct (shorten_for_spec fuel (keys background) background He
              (fun k => DictFacts.get_in_keys k background) Hfuel)
    as (background' & Hrun & Hkeys & Hrel & Hfit).
  exists background'. split; [exact Hrun|]. split; [exact Hkeys|].
  intros subject text Hget. specialize (Hrel subject).
  rewrite Hget in Hrel. destruct Hrel as (n & text' & Hget' & Hcuts).
  exists n, text'. split; [exact Hget'|]. split; [exact Hcuts|].
  split; [eapply cuts_prefix; exact Hcuts|].
  split; [destruct Hcuts as [-> _]; apply iter_cut90_length_eq|].
  eapply Hfit; [|exact Hget']. eapply get_some_in_keys; exact Hget.
Qed.

End Shorten.

(** One text of 2100 characters is cut once, to 1890; an absent text
    stays absent. *)
Example shorten_demo :
  shorten (Demo.services []) Demo.args 2101
    [("A", Some (Demo.times "a" 2100)); ("B", None)]
  = Returns [("A", Some (Demo.times "a" 1890)); ("B", None)].
Proof. vm_compute. reflexivity. Qed.

Lemma shorten_cuts_to_fitting_prefix_witness :
  let background := [("A", Some (Demo.times "a" 2100)); ("B", None)] in
  exists background',
    shorten (Demo.services []) Demo.args 2101 background = Returns background' /\
    keys background' = keys background /\
    forall subject text,
      dict_get subject background = Some (Some text) ->
      exists n text',
        dict_get subject background' = Some (Some text') /\
        cuts (Demo.services []) Demo.args n text text' /\
        String.prefix text' text = true /\
        String.length text'
          = Nat.iter n (fun len => 9 * len / 10) (String.length text) /\
        token_count (Demo.services []) Demo.args text' <= max_token_count (model Demo.args).
Proof.
  intros background.
  apply (shorten_cuts_to_fitting_prefix (Demo.services []) Demo.args 2101 background).
  - reflexivity.
  - intros k text. unfold background. simpl.
    destruct (String.eqb k "A"); [|destruct (String.eqb k "B"); discriminate].
    intros [= <-]. vm_compute. lia.
Defined.

(** ** How the world evolves *)

Module Evolution.

Lemma evolves_refl w : evolves w w.
Proof.
  split; try reflexivity.
  - exists []. rewrite app_nil_r. split; [reflexivity|]. split; [simpl; lia | constructor].
  - intros k Hnone [v Hv]. congruence.
Qed.

Lemma evolves_trans w1 w2 w3 : evolves w1 w2 -> evolves w2 w3 -> evolves w1 w3.
Proof.
  intros [G1 D1 F1 (l1 & C1 & N1 & L1) K1 S1 H1 O1]
         [G2 D2 F2 (l2 & C2 & N2 & L2) K2 S2 H2 O2].
  split; try (etransitivity; eassumption).
  - exists (l1 ++ l2)%list. rewrite C2, C1, N2, N1, length_app, <- app_assoc.
    split; [reflexivity|]. split; [lia | now apply Forall_app].
  - intros k Hnone Hsome.
    destruct (gpt_cache w2 !! k) eqn:E2; [apply K1; eauto | apply K2; auto].
Qed.

#[export] Instance evolves_preorder : PreOrder evolves.
Proof. split; [exact evolves_refl | exact evolves_trans]. Qed.

#[export] Instance same_preorder {B} (proj : world -> B) : PreOrder (same proj).
Proof. split; unfold same; [now intros w | intros w1 w2 w3; congruence]. Qed.

Section Respects.

Context (R : world -> world -> Prop) `{!PreOrder R}.

Lemma respects_ret {A} (a : A) : respects R (ret a).
Proof. intros w. reflexivity. Qed.

Lemma respects_raise {A} e : respects R (@raise A e).
Proof. intros w. reflexivity. Qed.

Lemma respects_lift {A} (o : outcome A) : respects R (lift o).
Proof. intros w. reflexivity. Qed.

Lemma respects_bind {A B} (c : M A) (k : A -> M B) :
  respects R c -> (forall a, respects R (k a)) -> respects R (bind c k).
Proof.
  intros Hc Hk w. unfold bind. specialize (Hc w).
  destruct (c w) as [[a| |] w']; simpl in *; auto.
  etransitivity; [exact Hc | apply Hk].
Qed.

Lemma respects_try_except {A} (c : M A) handler :
  respects R c -> (forall e, respects R (handler e)) ->
  respects R (try_except c handler).
Proof.
  intros Hc Hh w. unfold try_except. specialize (Hc w).
  destruct (c w) as [[a| |] w']; simpl in *; auto.
  etransitivity; [exact Hc | apply Hh].
Qed.

Lemma respects_when b c : respects R c -> respects R (when b c).
Proof. destruct b; simpl; auto using respects_ret. Qed.

Lemma respects_py_assert b : respects R (py_assert b).
Proof. destruct b; simpl; auto using respects_ret, respects_raise. Qed.

(** A decorated function respects [R] if its body does and storing
    the value is allowed after a miss. *)
Lemma respects_memory_cache {K V} `{Countable K}
    (store : world -> gmap K V) set_store (func : K -> M V) args :
  respects R (func args) ->
  (forall w v w', store w !! args = None -> func args w = (Returns v, w') ->
                  R w (set_store (<[args := v]> (store w')) w')) ->
  respects R (memory_cache store set_store func args).
Proof.
  intros Hfunc Hstore w. unfold memory_cache.
  destruct (store w !! args) as [v|] eqn:Hlook; [reflexivity|].
  specialize (Hfunc w). specialize (Hstore w).
  destruct (func args w) as [[v| |] w']; simpl in *; auto.
Qed.

End Respects.

Lemma inv_bind {A B} (c : M A) (k : A -> M B) w b w' :
  bind c k w = (Returns b, w') ->
  exists a w1, c w = (Returns a, w1) /\ k a w1 = (Returns b, w').
Proof.
  unfold bind. destruct (c w) as [[a| |] w1]; try discriminate. eauto.
Qed.

Lemma evolves_stdout w l : evolves w (set_stdout (stdout w ++ l)%list w).
Proof.
  destruct (evolves_refl w) as [G D F C K S H O].
  split; simpl; auto. now exists l.
Qed.

Lemma preserves_print text : preserves (print text).
Proof. intros w. apply evolves_stdout. Qed.

Lemma same_print {B} (proj : world -> B) text :
  (forall l w, proj (set_stdout l w) = proj w) -> respects (same proj) (print text).
Proof. intros Hproj w. apply Hproj. Qed.

End Evolution.

(** ** The memoized layer *)

Section MemoryCache.

Context {K V : Type} `{Countable K}.
Context (store : world -> gmap K V) (set_store : gmap K V -> world -> world).
Hypothesis store_set : forall c w, store (set_store c w) = c.

Lemma memory_cache_hit (func : K -> M V) args w v :
  store w !! args = Some v ->
  memory_cache store set_store func args w = (Returns v, w).
Proof. intros Hhit. unfold memory_cache. now rewrite Hhit. Qed.

Lemma memory_cache_miss (func : K -> M V) args w :
  store w !! args = None ->
  memory_cache store set_store func args w
  = match func args w with
    | (Returns v, w') => (Returns v, set_store (<[args := v]> (store w')) w')
    | r => r
    end.
Proof. intros Hmiss. unfold memory_cache. now rewrite Hmiss. Qed.

Lemma memory_cache_stores (func : K -> M V) args w v w1 :
  memory_cache store set_store func args w = (Returns v, w1) ->
  store w1 !! args = Some v.
Proof.
  unfold memory_cache. intros Hcall.
  destruct (store w !! args) as [v0|] eqn:Hlook.
  - injection Hcall as -> ->. exact Hlook.
  - destruct (func args w) as [[v0| |] w']; try discriminate.
    injection Hcall as -> <-. rewrite store_set. apply lookup_insert_eq.
Qed.

(** C5.  When a call through the memoized layer returns [v], then [v]
    is stored under the call's arguments; if the call was a miss, the
    wrapped function ran once and its value was stored; and a later
    call with the same arguments, in any world whose store still holds
    the entries, returns [v] and leaves the world as it is, whatever
    the wrapped function would do: it is not run. *)
Theorem memory_cache_runs_once (func : K -> M V) args w v w1 :
  memory_cache store set_store func args w = (Returns v, w1) ->
  store w1 !! args = Some v /\
  (store w !! args = None ->
   exists w', func args w = (Returns v, w') /\
              w1 = set_store (<[args := v]> (store w')) w') /\
  forall (func' : K -> M V) w2,
    store w1 ⊆ store w2 ->
    memory_cache store set_store func' args w2 = (Returns v, w2).
Proof.
  intros Hcall. pose proof (memory_cache_stores _ _ _ _ _ Hcall) as Hstored.
  split; [exact Hstored|]. split.
  - intros Hmiss. rewrite (memory_cache_miss _ _ _ Hmiss) in Hcall.
    destruct (func args w) as [[v0| |] w']; try discriminate.
    injection Hcall as -> <-. eauto.
  - intros func' w2 Hsub. apply memory_cache_hit.
    eapply lookup_weaken; eassumption.
Qed.

End MemoryCache.

(** ** [gpt] *)

Section Gpt.

Context (srv : services) (args : arguments).

Lemma gpt_body_eq prompt model_arg w :
  gpt_body srv args (prompt, model_arg) w
  = if (25 <? String.length prompt)%nat
    then
      let m := py_or model_arg (model_str (model args)) in
      (ChatCompletion_create srv (completions w) m prompt,
       set_completions (completions w ++ [(m, prompt)])%list
         (set_gpt_query_count (gpt_query_count w + 1) w))
    else (Raises AssertionError, w).
Proof.
  unfold gpt_body, bind. destruct (25 <? String.length prompt)%nat; reflexivity.
Qed.

Lemma evolves_request w m prompt :
  25 < String.length prompt ->
  evolves w (set_completions (completions w ++ [(m, prompt)])%list
               (set_gpt_query_count (gpt_query_count w + 1) w)).
Proof.
  intros Hlen. destruct (Evolution.evolves_refl w) as [G D F C N S' H O].
  split; simpl; auto.
  exists [(m, prompt)]. split; [reflexivity|]. split; [simpl; lia|].
  constructor; [exact Hlen | constructor].
Qed.

Lemma evolves_gpt_store w w' k v :
  evolves w w' -> gpt_cache w' = gpt_cache w -> gpt_cache w !! k = None ->
  25 < String.length (fst k) ->
  evolves w (set_gpt_cache (<[k := v]> (gpt_cache w')) w').
Proof.
  intros [G D F C N S' H O] Hsame Hmiss Hlen.
  split; simpl; auto.
  - rewrite Hsame. now apply insert_subseteq.
  - intros k0 Hnone Hsome. destruct (decide (k = k0)) as [<-|Hne]; [exact Hlen|].
    rewrite lookup_insert_ne, Hsame in Hsome by exact Hne.
    destruct Hsome as [v0 Hv0]. congruence.
Qed.

Lemma preserves_gpt prompt model_arg : preserves (gpt srv args prompt model_arg).
Proof.
  intros w. unfold gpt, memory_cache.
  destruct (gpt_cache w !! (prompt, model_arg)) as [v|] eqn:Hlook;
    [apply Evolution.evolves_refl|].
  rewrite gpt_body_eq.
  destruct (25 <? String.length prompt)%nat eqn:Hlen;
    [|apply Evolution.evolves_refl].
  apply Nat.ltb_lt in Hlen. cbv zeta.
  pose proof (evolves_request w (py_or model_arg (model_str (model args))) prompt Hlen)
    as Hreq.
  destruct (ChatCompletion_create srv _ _ _) as [v| |]; cbn [snd];
    try exact Hreq.
  apply evolves_gpt_store; auto.
Qed.

Lemma gpt_cache_sound_evolves w w' :
  gpt_cache_sound w -> evolves w w' -> gpt_cache_sound w'.
Proof.
  intros Hsound Hev k Hsome.
  destruct (gpt_cache w !! k) eqn:Hlook.
  - apply Hsound. eauto.
  - eapply ev_new_keys; eassumption.
Qed.

Lemma gpt_cache_sound_start d f : gpt_cache_sound (start ∅ d f).
Proof. intros k [v Hv]. simpl in Hv. now rewrite lookup_empty in Hv. Qed.

(** C8.  In a world whose store of [gpt] holds only what [gpt] itself
    can have stored, a call with a prompt of at most 25 characters
    raises [AssertionError] and leaves the world as it was: no request
    is made and the counter keeps its value. *)
Theorem gpt_asserts_prompt_length prompt model_arg w :
  String.length prompt <= 25 ->
  gpt_cache_sound w ->
  gpt srv args prompt model_arg w = (Raises AssertionError, w).
Proof.
  intros Hlen Hsound. unfold gpt.
  rewrite (memory_cache_miss gpt_cache set_gpt_cache).
  - rewrite gpt_body_eq.
    destruct (25 <? String.length prompt)%nat eqn:E; [|reflexivity].
    apply Nat.ltb_lt in E. lia.
  - destruct (gpt_cache w !! (prompt, model_arg)) eqn:Hlook; [|reflexivity].
    specialize (Hsound (prompt, model_arg) ltac:(eauto)). simpl in Hsound. lia.
Qed.

End Gpt.

(** ** The source resolver *)

Section Resolver.

Context (srv : services) (args : arguments).

Abbreviation fetch := (fetch_url_and_extract_info srv).
Abbreviation error_line url msg := (Printed ("Error fetching " ++ url ++ ": " ++ msg)).

Lemma fetch_body_eq url w :
  fetch_body srv url w
  = let w1 := set_fetches (fetches w ++ [url])%list w in
    let complain msg := set_stdout (stdout w1 ++ [error_line url msg])%list w1 in
    match requests_get srv url with
    | Returns response =>
        if (status_code response =? 200)%nat then
          match title (content response) with
          | Some t =>
              (Returns (tag_string t,
                        Some (Str.join " " (stripped_strings (content response)))),
               w1)
          | None =>
              (Returns (None, None),
               complain "'NoneType' object has no attribute 'string'")
          end
        else (Returns (None, None), complain (Str.of_nat (status_code response)))
    | Raises e => (Returns (None, None), complain (exn_str e))
    | Hangs => (Hangs, w1)
    end.
Proof.
  unfold fetch_body, try_except, bind.
  destruct (requests_get srv url) as [response|e|]; try reflexivity.
  destruct (status_code response =? 200)%nat; try reflexivity.
  unfold title_string. destruct (title (content response)); reflexivity.
Qed.

Lemma fetch_body_fst url w : fst (fetch_body srv url w) = extract_info srv url.
Proof.
  rewrite fetch_body_eq. unfold extract_info.
  destruct (requests_get srv url) as [response|e|]; try reflexivity.
  destruct (status_code response =? 200)%nat; try reflexivity.
  destruct (title (content response)); reflexivity.
Qed.

(** What the body changes: one request is logged, lines may be printed. *)
Lemma fetch_body_snd url w :
  exists out,
    snd (fetch_body srv url w)
    = set_stdout (stdout w ++ out)%list (set_fetches (fetches w ++ [url])%list w).
Proof.
  rewrite fetch_body_eq.
  destruct (requests_get srv url) as [response|e|]; cbv zeta.
  - destruct (status_code response =? 200)%nat;
      [destruct (title (content response))|]; simpl; eauto.
    exists []. now rewrite app_nil_r; destruct w.
  - simpl; eauto.
  - exists []. simpl. now rewrite app_nil_r.
Qed.

Lemma fetch_fails_extract url :
  fetch_fails srv url -> extract_info srv url = Returns (None, None).
Proof.
  unfold extract_info. intros [[e ->]|(response & -> & Hstatus)]; [reflexivity|].
  apply Nat.eqb_neq in Hstatus. now rewrite Hstatus.
Qed.

(** A call of the memoized fetch that returns: its value is
    [fetch_result], later calls see the same results, at most the one
    request was made, and nothing but the store of fetches, the log of
    requests and the output changed. *)
Lemma fetch_returns url w v :
  fetch_result srv w url = Returns v ->
  exists w',
    fetch url w = (Returns v, w') /\
    (forall u, fetch_result srv w' u = fetch_result srv w u) /\
    (exists l, fetches w' = (fetches w ++ l)%list /\ l `sublist_of` [url]) /\
    ddg_top_hit_cache w' = ddg_top_hit_cache w.
Proof.
  unfold fetch_result, fetch_url_and_extract_info, memory_cache.
  destruct (fetch_cache w !! url) as [v0|] eqn:Hlook.
  - intros [= ->]. exists w. split; [reflexivity|]. split; [reflexivity|].
    split; [|reflexivity]. exists []. rewrite app_nil_r. split; [reflexivity|].
    apply sublist_nil_l.
  - intros Hbody. pose proof (fetch_body_fst url w) as Hfst.
    destruct (fetch_body_snd url w) as [out Hsnd].
    destruct (fetch_body srv url w) as [o w1]. simpl in Hfst, Hsnd.
    rewrite Hfst, Hbody. subst w1. eexists. split; [reflexivity|]. simpl.
    split; [|split; [eauto|reflexivity]].
    intros u. destruct (decide (url = u)) as [<-|Hne].
    + now rewrite lookup_insert_eq, Hlook.
    + now rewrite lookup_insert_ne.
Qed.

Lemma when_print_frame b text w :
  exists w0,
    when b (print text) w = (Returns tt, w0) /\
    fetch_cache w0 = fetch_cache w /\ fetches w0 = fetches w /\
    ddg_top_hit_cache w0 = ddg_top_hit_cache w.
Proof. destruct b; simpl; eexists; (split; [reflexivity|]); auto. Qed.

Lemma fetch_result_frame w0 w :
  fetch_cache w0 = fetch_cache w ->
  forall u, fetch_result srv w0 u = fetch_result srv w u.
Proof. intros E u. unfold fetch_result. now rewrite E. Qed.

(** One turn of the loop of [ddg_top_hit]. *)
Lemma for_turn x rest w t c :
  fetch_result srv w (href x) = Returns (t, c) ->
  exists w1,
    ddg_top_hit_for srv args (x :: rest) w
    = (if truthy c then (Returns (Some (href x, t, c)), w1)
       else ddg_top_hit_for srv args rest w1) /\
    (forall u, fetch_result srv w1 u = fetch_result srv w u) /\
    (exists l, fetches w1 = (fetches w ++ l)%list /\ l `sublist_of` [href x]) /\
    ddg_top_hit_cache w1 = ddg_top_hit_cache w.
Proof.
  intros Hres. simpl. unfold bind at 1.
  destruct (when_print_frame (verbose args) ("  Fetching " ++ href x) w)
    as (w0 & -> & Hc & Hf & Hd).
  rewrite <- (fetch_result_frame w0 w Hc) in Hres.
  destruct (fetch_returns (href x) w0 (t, c) Hres) as (w1 & Hrun & Hstable & Hlog & Hd1).
  exists w1. unfold bind. rewrite Hrun. simpl.
  split; [destruct (truthy c); reflexivity|].
  split; [intros u; rewrite Hstable; now apply fetch_result_frame|].
  split; [now rewrite <- Hf | congruence].
Qed.

Lemma for_first_hit pre : forall r post w t c,
  Forall (no_text srv w) pre ->
  fetch_result srv w (href r) = Returns (t, c) -> truthy c = true ->
  exists w',
    ddg_top_hit_for srv args (pre ++ r :: post) w
      = (Returns (Some (href r, t, c)), w') /\
    (exists l, fetches w' = (fetches w ++ l)%list /\
               l `sublist_of` map href (pre ++ [r])) /\
    ddg_top_hit_cache w' = ddg_top_hit_cache w.
Proof.
  induction pre as [|x pre IH]; intros r post w t c Hpre Hres Htruthy.
  - destruct (for_turn r post w t c Hres) as (w1 & Hrun & _ & Hlog & Hd).
    rewrite Htruthy in Hrun. exists w1. auto.
  - apply Forall_cons in Hpre as [(t0 & c0 & Hx & Hfalsy) Hpre].
    destruct (for_turn x (pre ++ r :: post) w t0 c0 Hx)
      as (w1 & Hrun & Hstable & (l1 & Hl1 & Hsub1) & Hd1).
    rewrite Hfalsy in Hrun.
    destruct (IH r post w1 t c) as (w' & Hrun' & (l & Hl & Hsub) & Hd); auto.
    + eapply Forall_impl; [exact Hpre|].
      intros y (ty & cy & Hy & Hfy). exists ty, cy. now rewrite Hstable.
    + now rewrite Hstable.
    + exists w'. split; [simpl app; now rewrite Hrun|]. split; [|congruence].
      exists (l1 ++ l)%list. rewrite Hl, Hl1, <- app_assoc. split; [reflexivity|].
      change (map href ((x :: pre) ++ [r])) with ([href x] ++ map href (pre ++ [r]))%list.
      now apply sublist_app.
Qed.

(** C6.  For a topic that is not in the store, whose search results
    start with candidates without text, followed by a candidate with
    text, [ddg_top_hit] returns that candidate's origin, title and
    text; the requests made are for candidates up to and including it,
    in order, and none for what follows; and a candidate that is not
    in the store of fetches and whose request fails is one without
    text. *)
Theorem ddg_top_hit_first_with_text topic pre r post w t c :
  ddg_top_hit_cache w !! topic = None ->
  ddg srv topic = Some (pre ++ r :: post)%list ->
  Forall (no_text srv w) pre ->
  fetch_result srv w (href r) = Returns (t, c) ->
  truthy c = true ->
  (exists w',
     ddg_top_hit srv args topic w = (Returns (Some (href r, t, c)), w') /\
     exists l, fetches w' = (fetches w ++ l)%list /\
               l `sublist_of` map href (pre ++ [r])) /\
  (forall x, fetch_cache w !! href x = None -> fetch_fails srv (href x) ->
             no_text srv w x).
Proof.
  intros Hmiss Hresults Hpre Hres Htruthy. split.
  - unfold ddg_top_hit.
    rewrite (memory_cache_miss ddg_top_hit_cache set_ddg_top_hit_cache) by exact Hmiss.
    unfold ddg_top_hit_body. unfold bind at 1.
    destruct (when_print_frame (verbose args) ("Search DDG for: " ++ topic) w)
      as (w0 & -> & Hc & Hf & Hd).
    unfold bind at 1. rewrite Hresults.
    set (w1 := set_searches_done _ w0).
    destruct (for_first_hit pre r post w1 t c) as (w' & -> & (l & Hl & Hsub) & _).
    + eapply Forall_impl; [exact Hpre|].
      intros y (ty & cy & Hy & Hfy). exists ty, cy.
      rewrite <- Hy. split; [|exact Hfy]. apply fetch_result_frame. exact Hc.
    + rewrite <- Hres. apply fetch_result_frame. exact Hc.
    + exact Htruthy.
    + eexists. split; [reflexivity|]. exists l. simpl. rewrite Hl. simpl.
      now rewrite Hf.
  - intros x Hlook Hfails. exists None, None. split; [|reflexivity].
    unfold fetch_result. rewrite Hlook. now apply fetch_fails_extract.
Qed.

(** C10.  A page that is not in the store of fetches, is answered with
    status 200 and has no title element: the title's [.string] raises,
    the memoized fetch returns [(None, None)] whatever text the page
    has and stores that, and the loop of the resolver goes on to the
    candidates that follow. *)
Theorem fetch_discards_untitled_page url response w :
  requests_get srv url = Returns response ->
  status_code response = 200 ->
  title (content response) = None ->
  fetch_cache w !! url = None ->
  title_string (content response) w
    = (Raises (AttributeError "'NoneType' object has no attribute 'string'"), w) /\
  (exists w', fetch url w = (Returns (None, None), w') /\
              fetch_cache w' !! url = Some (None, None)) /\
  (forall rest, exists w1,
      ddg_top_hit_for srv args ({| href := url |} :: rest) w
      = ddg_top_hit_for srv args rest w1).
Proof.
  intros Hget Hstatus Htitle Hmiss.
  assert (Hres : forall w0, fetch_cache w0 = fetch_cache w ->
                   fetch_result srv w0 url = Returns (None, None)).
  { intros w0 E. unfold fetch_result, extract_info.
    now rewrite E, Hmiss, Hget, Hstatus, Htitle. }
  split; [unfold title_string; now rewrite Htitle|]. split.
  - unfold fetch_url_and_extract_info.
    rewrite (memory_cache_miss fetch_cache set_fetch_cache) by exact Hmiss.
    rewrite fetch_body_eq, Hget, Hstatus, Htitle. simpl.
    eexists. split; [reflexivity|]. simpl. apply lookup_insert_eq.
  - intros rest.
    destruct (for_turn {| href := url |} rest w None None (Hres w eq_refl))
      as (w1 & Hrun & _). exists w1. exact Hrun.
Qed.

End Resolver.

(** ** Every function of the program lets the world evolve *)

Section Preservation.

Context (srv : services) (args : arguments).

Import Evolution.

Lemma evolves_effects w out urls topics :
  evolves w (set_stdout (stdout w ++ out)%list
               (set_fetches (fetches w ++ urls)%list
                  (set_searches_done (searches_done w ++ topics)%list w))).
Proof.
  destruct (evolves_refl w) as [G D F C N S' H O].
  split; simpl; auto; eexists; reflexivity.
Qed.

Lemma preserves_fetch_body url : preserves (fetch_body srv url).
Proof.
  intros w. destruct (fetch_body_snd srv url w) as [out ->].
  pose proof (evolves_effects w out [url] []) as E. simpl in E.
  now rewrite app_nil_r in E.
Qed.

Lemma evolves_fetch_store w w' k v :
  evolves w w' -> fetch_cache w' = fetch_cache w -> fetch_cache w !! k = None ->
  evolves w (set_fetch_cache (<[k := v]> (fetch_cache w')) w').
Proof.
  intros [G D F C N S' H O] Hsame Hmiss. split; simpl; auto.
  rewrite Hsame. now apply insert_subseteq.
Qed.

Lemma evolves_ddg_top_hit_store w w' k v :
  evolves w w' -> ddg_top_hit_cache w' = ddg_top_hit_cache w ->
  ddg_top_hit_cache w !! k = None ->
  evolves w (set_ddg_top_hit_cache (<[k := v]> (ddg_top_hit_cache w')) w').
Proof.
  intros [G D F C N S' H O] Hsame Hmiss. split; simpl; auto.
  rewrite Hsame. now apply insert_subseteq.
Qed.

Lemma preserves_fetch url : preserves (fetch_url_and_extract_info srv url).
Proof.
  apply respects_memory_cache; [apply _ | apply preserves_fetch_body |].
  intros w v w' Hmiss Hrun. apply evolves_fetch_store; [| |exact Hmiss].
  - pose proof (preserves_fetch_body url w) as E. now rewrite Hrun in E.
  - destruct (fetch_body_snd srv url w) as [out E]. rewrite Hrun in E.
    simpl in E. now subst w'.
Qed.

Lemma same_ddg_fetch url :
  respects (same ddg_top_hit_cache) (fetch_url_and_extract_info srv url).
Proof.
  assert (Hbody : respects (same ddg_top_hit_cache) (fetch_body srv url)).
  { intros w. destruct (fetch_body_snd srv url w) as [out ->]. reflexivity. }
  apply respects_memory_cache; [apply _ | exact Hbody |].
  intros w v w' _ Hrun. specialize (Hbody w). rewrite Hrun in Hbody. exact Hbody.
Qed.

Lemma respects_ddg_top_hit_for R `{!PreOrder R} :
  (forall text, respects R (print text)) ->
  (forall url, respects R (fetch_url_and_extract_info srv url)) ->
  forall results, respects R (ddg_top_hit_for srv args results).
Proof.
  intros Hprint Hfetch results.
  induction results as [|result rest IH]; simpl.
  - now apply respects_ret.
  - apply respects_bind; [assumption | now apply respects_when |].
    intros _. apply respects_bind; [assumption | apply Hfetch |].
    intros info. destruct (truthy (snd info)); [now apply respects_ret | exact IH].
Qed.

Lemma respects_ddg_top_hit_body R `{!PreOrder R} topic :
  (forall text, respects R (print text)) ->
  (forall url, respects R (fetch_url_and_extract_info srv url)) ->
  (forall w t, R w (set_searches_done (searches_done w ++ t)%list w)) ->
  respects R (ddg_top_hit_body srv args topic).
Proof.
  intros Hprint Hfetch Hsearch. unfold ddg_top_hit_body.
  apply respects_bind; [assumption | now apply respects_when |].
  intros _. apply respects_bind; [assumption | |].
  - intros w. apply Hsearch.
  - intros [results|]; [now apply respects_ddg_top_hit_for|].
    now apply respects_raise.
Qed.

Lemma preserves_ddg_top_hit topic : preserves (ddg_top_hit srv args topic).
Proof.
  assert (Hbody : preserves (ddg_top_hit_body srv args topic)).
  { apply respects_ddg_top_hit_body;
      [apply _ | apply preserves_print | apply preserves_fetch |].
    intros w t. pose proof (evolves_effects w [] [] t) as E. simpl in E.
    rewrite !app_nil_r in E. exact E. }
  assert (Hsame : respects (same ddg_top_hit_cache) (ddg_top_hit_body srv args topic)).
  { apply respects_ddg_top_hit_body;
      [apply _ | | apply same_ddg_fetch | reflexivity].
    intros text. now apply same_print. }
  apply respects_memory_cache; [apply _ | exact Hbody |].
  intros w v w' Hmiss Hrun. specialize (Hbody w). specialize (Hsame w).
  rewrite Hrun in Hbody, Hsame. now apply evolves_ddg_top_hit_store.
Qed.

Lemma preserves_resolve_for searches : forall background sources,
  preserves (resolve_for srv args searches background sources).
Proof.
  induction searches as [|search rest IH]; intros background sources; simpl.
  - apply respects_ret; apply _.
  - apply respects_bind; [apply _ | apply preserves_ddg_top_hit |].
    intros h. apply respects_bind; [apply _ | | intros t; apply IH].
    destruct h; [apply respects_ret | apply respects_raise]; apply _.
Qed.

Lemma preserves_summarize_for subjects : forall background,
  preserves (summarize_for srv args subjects background).
Proof.
  induction subjects as [|subject rest IH]; intros background; simpl.
  - apply respects_ret; apply _.
  - apply respects_bind; [apply _ | apply respects_lift; apply _ |].
    intros [text|]; [|apply IH].
    destruct (negb (truthy text)); [apply IH|].
    destruct (_ <=? _)%nat; [apply respects_ret; apply _|].
    apply respects_bind; [apply _ | apply preserves_gpt |].
    intros summary. apply IH.
Qed.

Lemma print_sources_eq sources : forall w,
  print_sources sources w
  = (Returns tt,
     set_stdout (stdout w ++ map cite sources)%list w).
Proof.
  induction sources as [|entry rest IH]; intros w; simpl.
  - unfold ret. rewrite app_nil_r. now destruct w.
  - unfold bind, print. rewrite IH. simpl. now rewrite <- app_assoc.
Qed.

Lemma preserves_print_sources sources : preserves (print_sources sources).
Proof. intros w. rewrite print_sources_eq. apply evolves_stdout. Qed.

Lemma preserves_pprint_sizes label background :
  preserves (pprint_sizes label background).
Proof.
  apply respects_bind; [apply _ | apply respects_lift; apply _ |].
  intros l w. apply evolves_stdout.
Qed.

Lemma preserves_main fuel : preserves (main srv args fuel).
Proof.
  unfold main.
  repeat first
    [ apply preserves_gpt | apply preserves_print | apply preserves_print_sources
    | apply preserves_resolve_for | apply preserves_summarize_for
    | apply respects_lift; apply _
    | apply respects_when; [apply _ | apply preserves_pprint_sizes]
    | apply respects_bind; [apply _ | | intros ?] ].
  intros w. apply preserves_print.
Qed.

End Preservation.

(** ** Token accounting *)

(** C7.  The estimate of a text is twice the number of tokens the
    tokenizer of the active model gives it. *)
Theorem token_count_doubles_tokenizer (srv : services) (args : arguments) text :
  token_count srv args text = 2 * length (encode srv (model args) text).
Proof. unfold token_count. apply Nat.mul_comm. Qed.

(** ** Summarization: [summarize] *)

Section Summarize.

Context (srv : services) (args : arguments).

Abbreviation fits background :=
  (token_count srv args (background_text background)
   <= max_token_count (model args)).

Lemma gpt_returns_stored prompt model_arg w v w1 :
  gpt srv args prompt model_arg w = (Returns v, w1) ->
  gpt_cache w1 !! (prompt, model_arg) = Some v.
Proof.
  apply (memory_cache_stores gpt_cache set_gpt_cache). reflexivity.
Qed.

Lemma shorten_while_keys fuel : forall subject background background',
  shorten_while srv args fuel subject background = Returns background' ->
  keys background' = keys background.
Proof.
  induction fuel as [|fuel IH]; intros subject background background'; simpl;
    [discriminate|].
  destruct (dict_get subject background) as [[text|]|] eqn:Hget; try discriminate.
  destruct (_ <? _)%nat; [|now intros [= ->]].
  intros Hrun. rewrite (IH _ _ _ Hrun).
  apply DictFacts.keys_set_present. congruence.
Qed.

Lemma shorten_for_keys fuel subjects : forall background background',
  shorten_for srv args fuel subjects background = Returns background' ->
  keys background' = keys background.
Proof.
  induction subjects as [|subject rest IH]; intros background background'; simpl.
  - now intros [= ->].
  - destruct (dict_get subject background) as [v|]; [|discriminate].
    destruct (negb (truthy v)); [apply IH|].
    destruct (shorten_while srv args fuel subject background) as [b| |] eqn:Hw;
      try discriminate.
    intros Hrun. rewrite (IH _ _ Hrun). eapply shorten_while_keys, Hw.
Qed.

(** What a pass of [summarize] over [subjects] that returns has done:
    the keys and the values under other keys are as before, and either
    the serialized background fits or every subject with text now has
    the completion stored for its summarization prompt. *)
Lemma summarize_for_spec subjects : forall background w background' w',
  List.NoDup subjects ->
  (forall k, In k subjects -> dict_get k background <> None) ->
  summarize_for srv args subjects background w = (Returns background', w') ->
  keys background' = keys background /\
  (forall k, ~ In k subjects -> dict_get k background' = dict_get k background) /\
  (fits background' \/
   forall k text,
     In k subjects -> dict_get k background = Some (Some text) ->
     truthy text = true ->
     exists summary,
       dict_get k background' = Some (Some summary) /\
       gpt_cache w' !! (summarize_prompt k text, None) = Some summary).
Proof.
  induction subjects as [|subject rest IH];
    intros background w background' w' Hnodup Hin Hrun.
  - injection Hrun as -> ->. split; [reflexivity|]. split; [reflexivity|].
    right. intros k text [].
  - apply List.NoDup_cons_iff in Hnodup as [Hfresh Hnodup].
    assert (Hrest : forall b, keys b = keys background ->
              (forall k, k <> subject -> dict_get k b = dict_get k background) ->
              forall k, In k rest -> dict_get k b <> None).
    { intros b _ Hb k Hk. rewrite Hb by (intros ->; contradiction).
      apply Hin. now right. }
    simpl in Hrun. unfold bind at 1, lift, dict_getitem in Hrun.
    destruct (dict_get subject background) as [v|] eqn:Hget;
      [|exfalso; now apply (Hin subject); [left|]].
    assert (Hskip :
      summarize_for srv args rest background w = (Returns background', w') ->
      truthy v = false ->
      keys background' = keys background /\
      (forall k, ~ In k (subject :: rest) ->
                 dict_get k background' = dict_get k background) /\
      (fits background' \/
       forall k text,
         In k (subject :: rest) -> dict_get k background = Some (Some text) ->
         truthy text = true ->
         exists summary,
           dict_get k background' = Some (Some summary) /\
           gpt_cache w' !! (summarize_prompt k text, None) = Some summary)).
    { intros Hrun' Hfalsy.
      destruct (IH background w background' w' Hnodup) as (Hk & Hother & Hdone);
        auto.
      split; [exact Hk|]. split; [intros k Hk'; apply Hother; simpl in Hk'; tauto|].
      destruct Hdone as [Hfit|Hall]; [now left | right].
      intros k text [<-|Hk'] Hgetk Htruthy; [|now apply Hall].
      rewrite Hget in Hgetk. injection Hgetk as ->.
      change (truthy text = false) in Hfalsy. congruence. }
    destruct v as [text|]; [|now apply Hskip].
    destruct (truthy text) eqn:Htruthy; simpl in Hrun; [|now apply Hskip].
    destruct (_ <=? _)%nat eqn:Hfit in Hrun.
    + injection Hrun as -> ->. apply Nat.leb_le in Hfit. auto.
    + apply Evolution.inv_bind in Hrun as (summary & w1 & Hgpt & Hrun).
      pose proof (gpt_returns_stored _ _ _ _ _ Hgpt) as Hstored.
      pose proof (preserves_summarize_for srv args rest
                    (dict_set subject (Some summary) background) w1) as Hev.
      rewrite Hrun in Hev. simpl in Hev.
      assert (Hne : forall k, k <> subject ->
                dict_get k (dict_set subject (Some summary) background)
                = dict_get k background).
      { intros k Hk. apply DictFacts.get_set_ne. congruence. }
      assert (Hkeys1 : keys (dict_set subject (Some summary) background)
                       = keys background).
      { apply DictFacts.keys_set_present. congruence. }
      destruct (IH _ w1 background' w' Hnodup (Hrest _ Hkeys1 Hne) Hrun)
        as (Hk & Hother & Hdone).
      split; [congruence|]. split.
      * intros k Hk'. simpl in Hk'. rewrite Hother by tauto.
        apply Hne. intros ->. tauto.
      * destruct Hdone as [Hfit'|Hall]; [now left | right].
        intros k text0 [<-|Hk'] Hgetk Htruthy0.
        -- rewrite Hget in Hgetk. injection Hgetk as <-.
           exists summary. rewrite Hother by exact Hfresh.
           rewrite DictFacts.get_set_eq. split; [reflexivity|].
           eapply lookup_weaken; [exact Hstored | apply Hev].
        -- apply Hall; auto. rewrite Hne; [exact Hgetk|].
           intros ->. contradiction.
Qed.

Lemma gpt_request_log prompt w r w1 :
  gpt srv args prompt None w = (r, w1) ->
  exists l, completions w1 = (completions w ++ l)%list /\
            l `sublist_of` [(model_str (model args), prompt)].
Proof.
  unfold gpt, memory_cache.
  destruct (gpt_cache w !! (prompt, None)).
  - intros [= _ <-]. exists []. rewrite app_nil_r. split; [reflexivity|].
    apply sublist_nil_l.
  - rewrite gpt_body_eq. destruct (25 <? String.length prompt)%nat.
    + cbv zeta. unfold py_or.
      destruct (ChatCompletion_create srv _ _ _); intros [= _ <-];
        (eexists; split; [reflexivity | reflexivity]).
    + intros [= _ <-]. exists []. rewrite app_nil_r. split; [reflexivity|].
      apply sublist_nil_l.
Qed.

Lemma summarize_requests_set subject v done background :
  ~ In subject done ->
  summarize_requests args done (dict_set subject v background)
  = summarize_requests args done background.
Proof.
  intros Hout. unfold summarize_requests.
  induction done as [|k done IH]; [reflexivity|].
  cbn [flat_map]. rewrite IH by (intros H; apply Hout; now right).
  rewrite DictFacts.get_set_ne; [reflexivity|].
  intros ->. apply Hout. now left.
Qed.

(** The pass of [summarize] over [subjects], when it returns: the
    subjects gone through before it stopped ([done]) and those left
    ([rest]).  Values outside [done] are as before; each subject of
    [done] with text holds the completion stored for its summarization
    prompt; the requests made are, in order, among those for the
    subjects of [done]; and the pass stopped before the end only because
    the serialized background fits. *)
Lemma summarize_for_pass subjects : forall background w background' w',
  List.NoDup subjects ->
  (forall k, In k subjects -> dict_get k background <> None) ->
  summarize_for srv args subjects background w = (Returns background', w') ->
  exists done rest l,
    subjects = (done ++ rest)%list /\
    (rest = [] \/ fits background') /\
    (forall k, ~ In k done -> dict_get k background' = dict_get k background) /\
    (forall k text,
       In k done -> dict_get k background = Some (Some text) ->
       truthy text = true ->
       exists summary,
         dict_get k background' = Some (Some summary) /\
         gpt_cache w' !! (summarize_prompt k text, None) = Some summary) /\
    completions w' = (completions w ++ l)%list /\
    l `sublist_of` summarize_requests args done background.
Proof.
  induction subjects as [|subject rest0 IH];
    intros background w background' w' Hnodup Hin Hrun.
  - injection Hrun as -> ->. exists [], [], [].
    split; [reflexivity|]. split; [now left|]. split; [reflexivity|].
    split; [intros k text []|]. rewrite app_nil_r. split; [reflexivity|].
    apply sublist_nil_l.
  - apply List.NoDup_cons_iff in Hnodup as [Hfresh Hnodup].
    simpl in Hrun. unfold bind at 1, lift, dict_getitem in Hrun.
    destruct (dict_get subject background) as [v|] eqn:Hget;
      [|exfalso; now apply (Hin subject); [left|]].
    assert (Hskip :
      summarize_for srv args rest0 background w = (Returns background', w') ->
      truthy v = false ->
      exists done rest l,
        subject :: rest0 = (done ++ rest)%list /\
        (rest = [] \/ fits background') /\
        (forall k, ~ In k done -> dict_get k background' = dict_get k background) /\
        (forall k text,
           In k done -> dict_get k background = Some (Some text) ->
           truthy text = true ->
           exists summary,
             dict_get k background' = Some (Some summary) /\
             gpt_cache w' !! (summarize_prompt k text, None) = Some summary) /\
        completions w' = (completions w ++ l)%list /\
        l `sublist_of` summarize_requests args done background).
    { intros Hrun' Hfalsy.
      destruct (IH background w background' w' Hnodup)
        as (done & rest & l & Hsplit & Hstop & Hother & Hdone & Hlog & Hsub); auto.
      { intros k Hk. apply Hin. now right. }
      exists (subject :: done), rest, l.
      split; [simpl; now rewrite Hsplit|]. split; [exact Hstop|].
      split; [intros k Hk; apply Hother; simpl in Hk; tauto|].
      split.
      - intros k text [<-|Hk] Hgetk Htruthy; [|now apply Hdone].
        rewrite Hget in Hgetk. injection Hgetk as ->.
        change (truthy text = false) in Hfalsy. congruence.
      - split; [exact Hlog|]. unfold summarize_requests. cbn [flat_map].
        rewrite Hget. destruct v as [text|]; [|exact Hsub].
        change (truthy text = false) in Hfalsy. rewrite Hfalsy. exact Hsub. }
    destruct v as [text|]; [|now apply Hskip].
    destruct (truthy text) eqn:Htruthy; simpl in Hrun; [|now apply Hskip].
    destruct (_ <=? _)%nat eqn:Hfit in Hrun.
    + injection Hrun as -> ->. apply Nat.leb_le in Hfit.
      exists [], (subject :: rest0), [].
      split; [reflexivity|]. split; [now right|]. split; [reflexivity|].
      split; [intros k text0 []|]. rewrite app_nil_r. split; [reflexivity|].
      apply sublist_nil_l.
    + apply Evolution.inv_bind in Hrun as (summary & w1 & Hgpt & Hrun).
      pose proof (gpt_returns_stored _ _ _ _ _ Hgpt) as Hstored.
      destruct (gpt_request_log _ _ _ _ Hgpt) as (l0 & Hlog0 & Hsub0).
      pose proof (preserves_summarize_for srv args rest0
                    (dict_set subject (Some summary) background) w1) as Hev.
      rewrite Hrun in Hev. simpl in Hev.
      assert (Hne : forall k, k <> subject ->
                dict_get k (dict_set subject (Some summary) background)
                = dict_get k background).
      { intros k Hk. apply DictFacts.get_set_ne. congruence. }
      assert (Hpresent : forall k, In k rest0 ->
                dict_get k (dict_set subject (Some summary) background) <> None).
      { intros k Hk. rewrite Hne by (intros ->; contradiction).
        apply Hin. now right. }
      destruct (IH _ w1 background' w' Hnodup Hpresent Hrun)
        as (done & rest & l & Hsplit & Hstop & Hother & Hdone & Hlog & Hsub).
      assert (Hout : ~ In subject done).
      { intros Hd. apply Hfresh. rewrite Hsplit. apply in_or_app. now left. }
      exists (subject :: done), rest, (l0 ++ l)%list.
      split; [simpl; now rewrite Hsplit|]. split; [exact Hstop|].
      split.
      { intros k Hk. simpl in Hk. rewrite Hother by tauto.
        apply Hne. intros ->. tauto. }
      split.
      { intros k text0 [<-|Hk] Hgetk Htruthy0.
        - rewrite Hget in Hgetk. injection Hgetk as <-.
          exists summary. rewrite Hother by exact Hout.
          rewrite DictFacts.get_set_eq. split; [reflexivity|].
          eapply lookup_weaken; [exact Hstored | apply Hev].
        - apply Hdone; auto. rewrite Hne; [exact Hgetk|].
          intros ->. contradiction. }
      split; [now rewrite Hlog, Hlog0, app_assoc|].
      rewrite summarize_requests_set in Hsub by exact Hout.
      unfold summarize_requests. cbn [flat_map]. rewrite Hget, Htruthy.
      apply sublist_app; [|exact Hsub].
      unfold summarize_prompt, model_str, model in Hsub0.
      destruct (gpt4 args); exact Hsub0.
Qed.

(** C1, as the code has it.  When [shorten] and then [summarize]
    return, the keys are those of the input and either the estimate of
    the serialized background is at most the ceiling, or every topic
    with text left by [shorten] now holds the completion stored for
    its summarization prompt.  The pass is single and in key order:
    the keys split into those gone through ([done]) and those left
    ([rest]); values outside [done] are as [shorten] left them; each
    topic of [done] with text holds the completion for its own text;
    the requests made, which the counter counts, are in key order among
    one request for each such topic; and keys are left only when the
    background fits. *)
Theorem reducer_fits_or_summarized_all fuel background background1 w background2 w' :
  List.NoDup (keys background) ->
  shorten srv args fuel background = Returns background1 ->
  summarize srv args background1 w = (Returns background2, w') ->
  keys background2 = keys background /\
  (fits background2 \/
   forall subject text,
     dict_get subject background1 = Some (Some text) -> truthy text = true ->
     exists summary,
       dict_get subject background2 = Some (Some summary) /\
       gpt_cache w' !! (summarize_prompt subject text, None) = Some summary) /\
  exists done rest l,
    keys background1 = (done ++ rest)%list /\
    (rest = [] \/ fits background2) /\
    (forall k, ~ In k done -> dict_get k background2 = dict_get k background1) /\
    (forall k text,
       In k done -> dict_get k background1 = Some (Some text) ->
       truthy text = true ->
       exists summary,
         dict_get k background2 = Some (Some summary) /\
         gpt_cache w' !! (summarize_prompt k text, None) = Some summary) /\
    completions w' = (completions w ++ l)%list /\
    l `sublist_of` summarize_requests args done background1 /\
    gpt_query_count w' = gpt_query_count w + length l.
Proof.
  intros Hnodup Hshorten Hsummarize.
  apply shorten_for_keys in Hshorten as Hkeys1.
  assert (Hnodup1 : List.NoDup (keys background1)) by now rewrite Hkeys1.
  assert (Hpresent : forall k, In k (keys background1) ->
                               dict_get k background1 <> None).
  { intros k. apply DictFacts.get_in_keys. }
  destruct (summarize_for_spec (keys background1) background1 w background2 w'
              Hnodup1 Hpresent Hsummarize) as (Hkeys2 & _ & Hdone).
  split; [congruence|]. split.
  - destruct Hdone as [Hfit|Hall]; [now left | right].
    intros subject text Hget Htruthy. apply Hall; auto.
    destruct (in_dec string_dec subject (keys background1)) as [Hin|Hout]; auto.
    exfalso. clear -Hget Hout. induction background1 as [|[k v] b IH]; simpl in *;
      [discriminate|].
    destruct (DictFacts.eqb_eq_dec subject k) as [[-> E]|[Hk E]]; rewrite E in Hget;
      [tauto | apply IH; tauto].
  - destruct (summarize_for_pass (keys background1) background1 w background2 w'
                Hnodup1 Hpresent Hsummarize)
      as (done & rest & l & Hsplit & Hstop & Hother & Hsum & Hlog & Hsub).
    exists done, rest, l. do 6 (split; [assumption|]).
    pose proof (preserves_summarize_for srv args (keys background1) background1 w) as Hev.
    fold (summarize srv args background1) in Hev. rewrite Hsummarize in Hev.
    destruct (ev_completions _ _ Hev) as (l2 & Hl2 & Hcount & _). simpl in Hl2, Hcount.
    rewrite Hlog in Hl2. apply app_inv_head in Hl2. now subst l2.
Qed.

End Summarize.

(** ** The run: [main] *)

Section Main.

Context (srv : services) (args : arguments).

Import Evolution.

Abbreviation unpack_error := (TypeError "cannot unpack non-iterable NoneType object").

(** A topic for which the resolver returns [None] ends the loop over
    the topics with a [TypeError]: nothing is recorded for it. *)
Lemma resolve_for_unresolved search rest background sources w w' :
  ddg_top_hit srv args search w = (Returns None, w') ->
  resolve_for srv args (search :: rest) background sources w
  = (Raises unpack_error, w').
Proof. intros Hhit. simpl. unfold bind at 1. now rewrite Hhit. Qed.

Lemma resolve_for_resolves searches : forall background sources w bs w',
  resolve_for srv args searches background sources w = (Returns bs, w') ->
  exists new,
    snd bs = (sources ++ new)%list /\ resolves srv args searches w new w'.
Proof.
  induction searches as [|search rest IH]; intros background sources w bs w' Hrun.
  - injection Hrun as <- <-. exists []. simpl. rewrite app_nil_r.
    split; [reflexivity | constructor].
  - simpl in Hrun.
    apply Evolution.inv_bind in Hrun as (h & w1 & Hhit & Hrun).
    apply Evolution.inv_bind in Hrun as (t & w2 & Hunpack & Hrun).
    destruct h as [t0|]; [|discriminate]. injection Hunpack as -> ->.
    destruct (IH _ _ _ _ _ Hrun) as (new & Hnew & Hall).
    exists ((fst (fst t), snd (fst t)) :: new). rewrite Hnew, <- app_assoc.
    split; [reflexivity|]. destruct t as [[source title] content].
    econstructor; eassumption.
Qed.

Lemma resolves_length searches : forall w sources w',
  resolves srv args searches w sources w' -> length sources = length searches.
Proof.
  induction searches as [|search rest IH]; intros w sources w' Hres;
    inversion Hres; subst; simpl; [reflexivity|].
  f_equal. eapply IH. eassumption.
Qed.

Lemma run_evolves {A} (c : M A) w r w' :
  preserves c -> c w = (r, w') -> evolves w w'.
Proof. intros Hc Hrun. specialize (Hc w). now rewrite Hrun in Hc. Qed.

Lemma inv_when_pprint b label background w w' :
  when b (pprint_sizes label background) w = (Returns tt, w') ->
  evolves w w'.
Proof.
  apply run_evolves, respects_when; [apply _ | apply preserves_pprint_sizes].
Qed.

(** The shape of a run that returns: the topics come from the first
    completion, the sources from resolving them in order, and the
    output ends with the answer, the trailer showing the counter, an
    empty line, the heading and one citation per source. *)
Lemma main_report fuel w w' :
  main srv args fuel w = (Returns tt, w') ->
  exists search_text w1 searches sources w2 answer w3,
    gpt srv args (search_prompt srv args) None w = (Returns search_text, w1) /\
    json_loads srv search_text = Returns searches /\
    resolves srv args searches w1 sources w2 /\
    evolves w w3 /\
    w' = set_stdout
           (stdout w3 ++ [Printed answer; Printed (trailer args (gpt_query_count w3));
                          Printed ""; Printed "Sources:"] ++ map cite sources)%list w3.
Proof.
  unfold main. intros Hrun.
  apply Evolution.inv_bind in Hrun as (search_text & w1 & Hgpt1 & Hrun).
  apply Evolution.inv_bind in Hrun as (searches & w1' & Hjson & Hrun).
  injection Hjson as Hjson <-.
  apply Evolution.inv_bind in Hrun as (bs & w2 & Hresolve & Hrun).
  apply Evolution.inv_bind in Hrun as ([] & w2a & Hp1 & Hrun).
  apply Evolution.inv_bind in Hrun as (background1 & w2b & Hshorten & Hrun).
  injection Hshorten as Hshorten <-.
  apply Evolution.inv_bind in Hrun as ([] & w2c & Hp2 & Hrun).
  apply Evolution.inv_bind in Hrun as (background2 & w2d & Hsummarize & Hrun).
  apply Evolution.inv_bind in Hrun as ([] & w2e & Hp3 & Hrun).
  apply Evolution.inv_bind in Hrun as (answer & w3 & Hgpt2 & Hrun).
  destruct (resolve_for_resolves _ _ _ _ _ _ Hresolve) as (sources & Hsources & Hall).
  simpl in Hsources.
  exists search_text, w1, searches, sources, w2, answer, w3.
  split; [exact Hgpt1|]. split; [exact Hjson|]. split; [exact Hall|]. split.
  - apply run_evolves in Hgpt1; [|apply preserves_gpt].
    apply run_evolves in Hresolve; [|apply preserves_resolve_for].
    apply run_evolves in Hsummarize; [|apply preserves_summarize_for].
    apply run_evolves in Hgpt2; [|apply preserves_gpt].
    apply inv_when_pprint in Hp1, Hp2, Hp3.
    repeat (etransitivity; [eassumption|]). reflexivity.
  - unfold bind, print in Hrun. simpl in Hrun.
    rewrite print_sources_eq in Hrun. injection Hrun as <-.
    rewrite Hsources. simpl. now rewrite <- !app_assoc.
Qed.

(** C3, as the code has it.  [print_sources] prints one line for every
    entry of the Sources list, in the order of the list, of the form
    [* [title](origin)], with [None] for a title that is absent; and
    in a run that returns, the Sources list holds, in the order of the
    topics parsed from the first completion, the origin and title that
    [ddg_top_hit] returned for each topic, and the output ends with the
    heading followed by these lines, none skipped. *)
Theorem report_cites_every_source :
  let line (entry : string * option string) :=
    Printed ("* [" ++ match snd entry with Some title => title | None => "None" end
             ++ "](" ++ fst entry ++ ")") in
  (forall sources w,
     print_sources sources w
     = (Returns tt, set_stdout (stdout w ++ map line sources)%list w)) /\
  (forall fuel w w',
     main srv args fuel w = (Returns tt, w') ->
     exists search_text w1 searches sources w2 out,
       gpt srv args (search_prompt srv args) None w = (Returns search_text, w1) /\
       json_loads srv search_text = Returns searches /\
       resolves srv args searches w1 sources w2 /\
       length sources = length searches /\
       stdout w' = (out ++ Printed "Sources:" :: map line sources)%list).
Proof.
  intros line. split.
  - intros sources w. apply print_sources_eq.
  - intros fuel w w' Hrun.
    destruct (main_report fuel w w' Hrun)
      as (search_text & w1 & searches & sources & w2 & answer & w3
          & Hgpt & Hjson & Hall & _ & ->).
    exists search_text, w1, searches, sources, w2,
      (stdout w3 ++ [Printed answer; Printed (trailer args (gpt_query_count w3));
                     Printed ""])%list.
    split; [exact Hgpt|]. split; [exact Hjson|]. split; [exact Hall|].
    split; [eapply resolves_length; exact Hall|].
    change (map line sources) with (map cite sources).
    simpl. now rewrite <- app_assoc.
Qed.

(** C9.  A call of [gpt] whose arguments are in the store returns the
    stored completion and leaves the world, and so the counter, as it
    was; and when a run started by a fresh process, on whatever stores
    earlier runs left, returns, the counter equals the number of
    completion requests made in this run, and the line printed after
    the answer reads [(model, n queries)] with that number. *)
Theorem gpt_hit_keeps_counter :
  (forall prompt model_arg v w,
     gpt_cache w !! (prompt, model_arg) = Some v ->
     gpt srv args prompt model_arg w = (Returns v, w)) /\
  (forall fuel g d f w',
     main srv args fuel (start g d f) = (Returns tt, w') ->
     gpt_query_count w' = length (completions w') /\
     exists out answer cites,
       stdout w'
       = (out ++
          [Printed answer;
           Printed ("(" ++ (if gpt4 args then "gpt-4" else "gpt-3.5-turbo") ++ ", "
                    ++ NilEmpty.string_of_uint (Nat.to_uint (length (completions w')))
                    ++ " queries)");
           Printed ""; Printed "Sources:"] ++ cites)%list).
Proof.
  split.
  - intros prompt model_arg v w Hhit. unfold gpt, memory_cache. now rewrite Hhit.
  - intros fuel g d f w' Hrun.
    destruct (main_report fuel _ w' Hrun)
      as (search_text & w1 & searches & sources & w2 & answer & w3
          & _ & _ & _ & Hev & ->).
    destruct (ev_completions _ _ Hev) as (l & Hl & Hcount & _).
    simpl in Hl, Hcount.
    assert (Hn : gpt_query_count w3 = length (completions w3)) by now rewrite Hl.
    split; [exact Hn|].
    exists (stdout w3), answer, (map cite sources).
    cbn [stdout completions set_stdout]. rewrite <- Hn.
    unfold trailer, Str.of_nat, model, model_str.
    now destruct (gpt4 args).
Qed.

End Main.

(** ** The program run on the stand-ins *)

Module Runs.

Lemma run_eq {A} (run : outcome A * world) o : fst run = o -> run = (o, snd run).
Proof. intros <-. now destruct run. Qed.

Lemma chars_length text : length (Demo.chars text) = String.length text.
Proof. induction text as [|c text IH]; simpl; [reflexivity | now rewrite IH]. Qed.

Lemma half_tokens topics text :
  token_count (Demo.services topics) Demo.args (Demo.half text)
  <= token_count (Demo.services topics) Demo.args text.
Proof.
  unfold token_count, Demo.half. simpl. rewrite !chars_length.
  rewrite StrFacts.slice_to_length. lia.
Qed.

End Runs.

(** C1 fails on the code.  Three topics of 2000 characters each, every
    one under the ceiling of 4097 by itself; every summarization call
    returns half of the text it is given, so it never increases the
    size.  [shorten] changes nothing, [summarize] summarizes each topic
    once and returns, and the estimate of the serialized background is
    6026. *)
Lemma reducer_exceeds_ceiling :
  let srv := Demo.services [] in
  (forall history m subject text,
     In subject (keys Demo.three_long_texts) ->
     exists summary,
       ChatCompletion_create srv history m (summarize_prompt subject text)
       = Returns summary /\
       token_count srv Demo.args summary <= token_count srv Demo.args text) /\
  exists background1 background2 w',
    shorten srv Demo.args 2001 Demo.three_long_texts = Returns background1 /\
    summarize srv Demo.args background1 Demo.fresh = (Returns background2, w') /\
    max_token_count (model Demo.args)
    < token_count srv Demo.args (background_text background2).
Proof.
  intros srv. split.
  - intros history m subject text Hin. exists (Demo.half text).
    split; [|apply Runs.half_tokens].
    unfold Demo.three_long_texts, keys in Hin. cbn [map fst In] in Hin.
    destruct Hin as [<-|[<-|[<-|[]]]]; reflexivity.
  - exists Demo.three_long_texts, Demo.three_summaries,
      (snd (summarize srv Demo.args Demo.three_long_texts Demo.fresh)).
    split; [vm_compute; reflexivity|].
    split; [apply Runs.run_eq; vm_compute; reflexivity|].
    apply Nat.ltb_lt. vm_compute. reflexivity.
Qed.

Lemma reducer_fits_or_summarized_all_witness :
  let srv := Demo.services [] in
  let w' := snd (summarize srv Demo.args Demo.three_long_texts Demo.fresh) in
  keys Demo.three_summaries = keys Demo.three_long_texts /\
  (token_count srv Demo.args (background_text Demo.three_summaries)
   <= max_token_count (model Demo.args) \/
   forall subject text,
     dict_get subject Demo.three_long_texts = Some (Some text) ->
     truthy text = true ->
     exists summary,
       dict_get subject Demo.three_summaries = Some (Some summary) /\
       gpt_cache w' !! (summarize_prompt subject text, None) = Some summary) /\
  exists done rest l,
    keys Demo.three_long_texts = (done ++ rest)%list /\
    (rest = [] \/
     token_count srv Demo.args (background_text Demo.three_summaries)
     <= max_token_count (model Demo.args)) /\
    (forall k, ~ In k done ->
               dict_get k Demo.three_summaries = dict_get k Demo.three_long_texts) /\
    (forall k text,
       In k done -> dict_get k Demo.three_long_texts = Some (Some text) ->
       truthy text = true ->
       exists summary,
         dict_get k Demo.three_summaries = Some (Some summary) /\
         gpt_cache w' !! (summarize_prompt k text, None) = Some summary) /\
    completions w' = (completions Demo.fresh ++ l)%list /\
    l `sublist_of` summarize_requests Demo.args done Demo.three_long_texts /\
    gpt_query_count w' = gpt_query_count Demo.fresh + length l.
Proof.
  intros srv w'.
  apply (reducer_fits_or_summarized_all srv Demo.args 2001
           Demo.three_long_texts Demo.three_long_texts Demo.fresh).
  - unfold Demo.three_long_texts, keys. cbn [map fst].
    repeat constructor; cbn [In]; intuition discriminate.
  - vm_compute. reflexivity.
  - subst w'. apply Runs.run_eq. vm_compute. reflexivity.
Defined.

(** In that run the three requests are made in key order: the subject
    named in each prompt, after the 36 characters of the instruction. *)
Example summarize_requests_in_key_order :
  map (fun r => String.get 36 (snd r))
      (completions (snd (summarize (Demo.services []) Demo.args
                           Demo.three_long_texts Demo.fresh)))
  = [Some "A"%char; Some "B"%char; Some "C"%char].
Proof. vm_compute. reflexivity. Qed.

(** C2 on the code.  The topics are A, B and C and the search for B has
    no result: the resolver returns [None] for B, the unpacking in the
    loop of [main] raises [TypeError], and the run ends there. *)
Theorem main_raises_on_unresolved_topic :
  let srv := Demo.services ["A"; "B"; "C"] in
  let error := TypeError "cannot unpack non-iterable NoneType object" in
  fst (ddg_top_hit srv Demo.args "B" Demo.fresh) = Returns None /\
  fst (resolve_for srv Demo.args ["A"; "B"; "C"] [] [] Demo.fresh) = Raises error /\
  fst (main srv Demo.args 10 Demo.fresh) = Raises error.
Proof. vm_compute. auto. Qed.

(** C3 fails on the code: an entry without title is printed, not
    skipped. *)
Lemma print_sources_prints_untitled :
  ~ (forall sources w,
       stdout (snd (print_sources sources w))
       = (stdout w ++ map cite (List.filter has_title sources))%list).
Proof.
  intros Hskip. specialize (Hskip [("http://c/1", None)] Demo.fresh).
  vm_compute in Hskip. discriminate.
Qed.

(** The same end to end: the page found for topic C has a title element
    without a string, and the report cites it as [None]. *)
Example report_with_untitled_source :
  stdout (snd (main (Demo.services ["A"; "C"]) Demo.args 10 Demo.fresh))
  = [Printed "Error fetching http://a/1: 'NoneType' object has no attribute 'string'";
     Printed "Error fetching http://a/2: 404";
     Printed ("third page" ++ Str.nl ++ Str.nl ++ "C:" ++ Str.nl ++ "untitled page"
            ++ Str.nl ++ Str.nl ++ "Today is Tuesda");
     Printed "(gpt-3.5-turbo, 2 queries)";
     Printed "";
     Printed "Sources:";
     Printed "* [Third](http://a/3)";
     Printed "* [None](http://c/1)"].
Proof. vm_compute. reflexivity. Qed.

Lemma report_cites_every_source_witness :
  let srv := Demo.services ["A"; "C"] in
  exists search_text w1 searches sources w2 out,
    gpt srv Demo.args (search_prompt srv Demo.args) None Demo.fresh
    = (Returns search_text, w1) /\
    json_loads srv search_text = Returns searches /\
    resolves srv Demo.args searches w1 sources w2 /\
    length sources = length searches /\
    stdout (snd (main srv Demo.args 10 Demo.fresh))
    = (out ++ Printed "Sources:"
           :: map (fun entry : string * option string =>
                     Printed ("* [" ++ match snd entry with
                                       | Some title => title
                                       | None => "None"
                                       end ++ "](" ++ fst entry ++ ")"))
                  sources)%list.
Proof.
  intros srv.
  apply (proj2 (report_cites_every_source srv Demo.args) 10 Demo.fresh).
  apply Runs.run_eq. vm_compute. reflexivity.
Defined.

(** A first run on empty stores makes two requests; a second run, by a
    fresh process on the stores the first one left, finds both
    completions in the store, makes no request and reports 0 queries. *)
Lemma gpt_hit_keeps_counter_witness :
  let srv := Demo.services ["A"; "C"] in
  let w1 := snd (main srv Demo.args 10 Demo.fresh) in
  let again := start (gpt_cache w1) (ddg_top_hit_cache w1) (fetch_cache w1) in
  let w2 := snd (main srv Demo.args 10 again) in
  (exists v, gpt srv Demo.args (search_prompt srv Demo.args) None again
             = (Returns v, again)) /\
  (gpt_query_count w1 = length (completions w1) /\
   length (completions w1) = 2 /\
   In (Printed "(gpt-3.5-turbo, 2 queries)") (stdout w1)) /\
  (gpt_query_count w2 = length (completions w2) /\
   length (completions w2) = 0 /\
   In (Printed "(gpt-3.5-turbo, 0 queries)") (stdout w2)).
Proof.
  intros srv w1 again w2.
  assert (Hreport : forall g d f n,
            fst (main srv Demo.args 10 (start g d f)) = Returns tt ->
            length (completions (snd (main srv Demo.args 10 (start g d f)))) = n ->
            gpt_query_count (snd (main srv Demo.args 10 (start g d f)))
            = length (completions (snd (main srv Demo.args 10 (start g d f)))) /\
            length (completions (snd (main srv Demo.args 10 (start g d f)))) = n /\
            In (Printed ("(gpt-3.5-turbo, " ++ NilEmpty.string_of_uint (Nat.to_uint n)
                         ++ " queries)"))
               (stdout (snd (main srv Demo.args 10 (start g d f))))).
  { intros g d f n Hrun Hn.
    destruct (proj2 (gpt_hit_keeps_counter srv Demo.args) 10 g d f _
                (Runs.run_eq _ _ Hrun))
      as (Hcount & out & answer & cites & Hout).
    split; [exact Hcount|]. split; [exact Hn|].
    rewrite Hout, Hn. apply in_or_app. right. simpl. auto. }
  split; [|split].
  - exists (default "" (gpt_cache again !! (search_prompt srv Demo.args, None))).
    apply (proj1 (gpt_hit_keeps_counter srv Demo.args)).
    vm_compute. reflexivity.
  - apply (Hreport ∅ ∅ ∅ 2); vm_compute; reflexivity.
  - apply (Hreport (gpt_cache w1) (ddg_top_hit_cache w1) (fetch_cache w1) 0);
      vm_compute; reflexivity.
Defined.

Lemma memory_cache_runs_once_witness :
  let srv := Demo.services [] in
  let args := (summarize_prompt "A" "abcdefgh", @None string) in
  let w1 := snd (memory_cache gpt_cache set_gpt_cache (gpt_body srv Demo.args)
                   args Demo.fresh) in
  gpt_cache w1 !! args = Some "abcd" /\
  (gpt_cache Demo.fresh !! args = None ->
   exists w', gpt_body srv Demo.args args Demo.fresh = (Returns "abcd", w') /\
              w1 = set_gpt_cache (<[args := "abcd"]> (gpt_cache w')) w') /\
  forall (func' : string * option string -> M string) w2,
    gpt_cache w1 ⊆ gpt_cache w2 ->
    memory_cache gpt_cache set_gpt_cache func' args w2 = (Returns "abcd", w2).
Proof.
  intros srv args w1. subst w1.
  apply (memory_cache_runs_once gpt_cache set_gpt_cache (fun c w => eq_refl)
           (gpt_body srv Demo.args) args Demo.fresh "abcd").
  apply Runs.run_eq. vm_compute. reflexivity.
Defined.

Lemma gpt_asserts_prompt_length_witness :
  let srv := Demo.services [] in
  let w := snd (gpt srv Demo.args (summarize_prompt "A" "abcdefgh") None Demo.fresh) in
  gpt srv Demo.args "Summarize: the moon" None w = (Raises AssertionError, w).
Proof.
  intros srv w.
  apply (gpt_asserts_prompt_length srv Demo.args "Summarize: the moon" None w).
  - simpl. lia.
  - apply (gpt_cache_sound_evolves Demo.fresh).
    + apply gpt_cache_sound_start.
    + apply preserves_gpt.
Defined.

Lemma ddg_top_hit_first_with_text_witness :
  let srv := Demo.services [] in
  let pre := [ {| href := "http://a/1" |}; {| href := "http://a/2" |} ] in
  let r := {| href := "http://a/3" |} in
  (exists w',
     ddg_top_hit srv Demo.args "A" Demo.fresh
     = (Returns (Some ("http://a/3", Some "Third", Some "third page")), w') /\
     exists l, fetches w' = (fetches Demo.fresh ++ l)%list /\
               l `sublist_of` map href (pre ++ [r])) /\
  (forall x, fetch_cache Demo.fresh !! href x = None -> fetch_fails srv (href x) ->
             no_text srv Demo.fresh x).
Proof.
  intros srv pre r.
  apply (ddg_top_hit_first_with_text srv Demo.args "A" pre r
           [ {| href := "http://a/4" |} ] Demo.fresh (Some "Third") (Some "third page")).
  - reflexivity.
  - reflexivity.
  - repeat constructor; exists None, None; split; reflexivity.
  - reflexivity.
  - reflexivity.
Defined.

Lemma fetch_discards_untitled_page_witness :
  let srv := Demo.services [] in
  let url := "http://a/1" in
  let page := {| stripped_strings := ["text"; "without"; "title"]; title := None |} in
  title_string page Demo.fresh
    = (Raises (AttributeError "'NoneType' object has no attribute 'string'"), Demo.fresh) /\
  (exists w', fetch_url_and_extract_info srv url Demo.fresh = (Returns (None, None), w') /\
              fetch_cache w' !! url = Some (None, None)) /\
  (forall rest, exists w1,
      ddg_top_hit_for srv Demo.args ({| href := url |} :: rest) Demo.fresh
      = ddg_top_hit_for srv Demo.args rest w1).
Proof.
  intros srv url page.
  apply (fetch_discards_untitled_page srv Demo.args url
           {| status_code := 200; content := page |} Demo.fresh);
    reflexivity.
Defined.

(** * Further properties of the code *)

(** ** [shorten] on texts that need no cut *)

Section ShortenAgain.

Context (srv : services) (args : arguments).

Abbreviation settled' := (settled srv args).

Lemma shorten_while_fits fuel subject text background :
  dict_get subject background = Some (Some text) ->
  token_count srv args text <= max_token_count (model args) ->
  shorten_while srv args (S fuel) subject background = Returns background.
Proof.
  intros Hget Hfit. simpl. rewrite Hget.
  apply Nat.ltb_ge in Hfit. now rewrite Hfit.
Qed.

Lemma shorten_for_settled fuel subjects : forall background,
  (forall k, In k subjects -> dict_get k background <> None) ->
  (forall k, settled' (dict_get k background)) ->
  shorten_for srv args (S fuel) subjects background = Returns background.
Proof.
  induction subjects as [|subject rest IH]; intros background Hin Hok;
    [reflexivity|].
  cbn [shorten_for].
  destruct (dict_get subject background) as [v|] eqn:Hget;
    [|exfalso; now apply (Hin subject); [left|]].
  assert (Hrest : shorten_for srv args (S fuel) rest background = Returns background).
  { apply IH; [|exact Hok]. intros k Hk. apply Hin. now right. }
  destruct (truthy v) eqn:Htruthy; cbn [negb]; [|exact Hrest].
  destruct v as [text|]; [|discriminate].
  specialize (Hok subject). rewrite Hget in Hok.
  rewrite (shorten_while_fits fuel subject text background Hget (Hok Htruthy)).
  exact Hrest.
Qed.

(** What a [while] of [shorten] that returns leaves: under its subject a
    text within the ceiling, and every other value as it was. *)
Lemma shorten_while_returns fuel : forall subject background background',
  shorten_while srv args fuel subject background = Returns background' ->
  (exists text, dict_get subject background' = Some (Some text) /\
                token_count srv args text <= max_token_count (model args)) /\
  (forall k, k <> subject -> dict_get k background' = dict_get k background).
Proof.
  induction fuel as [|fuel IH]; intros subject background background';
    cbn [shorten_while]; [discriminate|].
  destruct (dict_get subject background) as [[text|]|] eqn:Hget; try discriminate.
  destruct (_ <? _)%nat eqn:Hover.
  - intros Hrun. destruct (IH _ _ _ Hrun) as [Hfit Hother]. split; [exact Hfit|].
    intros k Hk. rewrite Hother by exact Hk. apply DictFacts.get_set_ne. congruence.
  - intros [= <-]. apply Nat.ltb_ge in Hover. split; [eauto | reflexivity].
Qed.

Lemma shorten_for_returns fuel subjects : forall background background',
  shorten_for srv args fuel subjects background = Returns background' ->
  (forall k, settled' (dict_get k background) -> settled' (dict_get k background')) /\
  (forall k, In k subjects -> settled' (dict_get k background')).
Proof.
  induction subjects as [|subject rest IH]; intros background background';
    cbn [shorten_for].
  - intros [= <-]. split; [auto | intros k []].
  - destruct (dict_get subject background) as [v|] eqn:Hget; [|discriminate].
    destruct (truthy v) eqn:Htruthy; cbn [negb].
    + destruct (shorten_while srv args fuel subject background) as [b| |] eqn:Hw;
        try discriminate.
      intros Hrun. destruct (IH _ _ Hrun) as [Hkeep Hdone].
      destruct (shorten_while_returns _ _ _ _ Hw) as [(text & Hget1 & Hfit) Hother].
      assert (Hsubject : settled' (dict_get subject b)).
      { rewrite Hget1. intros _. exact Hfit. }
      split.
      * intros k Hk. apply Hkeep. destruct (string_dec k subject) as [->|Hne];
          [exact Hsubject | now rewrite Hother].
      * intros k [<-|Hk]; [now apply Hkeep | now apply Hdone].
    + intros Hrun. destruct (IH _ _ Hrun) as [Hkeep Hdone]. split; [exact Hkeep|].
      intros k [<-|Hk]; [|now apply Hdone]. apply Hkeep. rewrite Hget.
      destruct v as [text|]; [|exact I].
      change (truthy text = false) in Htruthy. intros E. congruence.
Qed.

(** X1.  When every text of the background is empty, absent or within
    the ceiling, [shorten] returns the background as it is. *)
Theorem shorten_leaves_fitting_texts fuel background :
  (forall k, settled' (dict_get k background)) ->
  shorten srv args (S fuel) background = Returns background.
Proof.
  intros Hok. apply shorten_for_settled; [|exact Hok].
  intros k. apply DictFacts.get_in_keys.
Qed.

(** X2.  [shorten] is idempotent: applied to a background it returned,
    it returns that background unchanged. *)
Theorem shorten_idempotent fuel fuel' background background' :
  shorten srv args fuel background = Returns background' ->
  shorten srv args (S fuel') background' = Returns background'.
Proof.
  intros Hrun. apply shorten_for_settled.
  - intros k. apply DictFacts.get_in_keys.
  - intros k. destruct (shorten_for_returns _ _ _ _ Hrun) as [_ Hdone].
    destruct (in_dec string_dec k (keys background)) as [Hin|Hout];
      [now apply Hdone|].
    destruct (dict_get k background') as [v|] eqn:Hget; [|exact I].
    exfalso. apply Hout. rewrite <- (shorten_for_keys _ _ _ _ _ _ Hrun).
    eapply get_some_in_keys. exact Hget.
Qed.

End ShortenAgain.

(** ** [summarize]: what it leaves alone and what it spends *)

Section SummarizeAgain.

Context (srv : services) (args : arguments).

Import Evolution.

Lemma summarize_for_fits subjects : forall background w,
  (forall k, In k subjects -> dict_get k background <> None) ->
  token_count srv args (background_text background) <= max_token_count (model args) ->
  summarize_for srv args subjects background w = (Returns background, w).
Proof.
  induction subjects as [|subject rest IH]; intros background w Hin Hfit;
    [reflexivity|].
  assert (Hrest : summarize_for srv args rest background w = (Returns background, w)).
  { apply IH; [|exact Hfit]. intros k Hk. apply Hin. now right. }
  cbn [summarize_for]. unfold bind at 1, lift, dict_getitem.
  destruct (dict_get subject background) as [v|] eqn:Hget;
    [|exfalso; now apply (Hin subject); [left|]].
  destruct v as [text|]; [|exact Hrest].
  destruct (truthy text); cbn [negb]; [|exact Hrest].
  apply Nat.leb_le in Hfit. now rewrite Hfit.
Qed.

(** X3.  When the serialized background is within the ceiling,
    [summarize] returns it as it is and leaves the world as it was: no
    completion is asked for and the counter keeps its value. *)
Theorem summarize_leaves_fitting_background background w :
  token_count srv args (background_text background) <= max_token_count (model args) ->
  summarize srv args background w = (Returns background, w).
Proof.
  intros Hfit. apply summarize_for_fits; [|exact Hfit].
  intros k. apply DictFacts.get_in_keys.
Qed.

Lemma summarize_for_keeps subjects : forall background w background' w',
  summarize_for srv args subjects background w = (Returns background', w') ->
  keys background' = keys background /\
  forall k v, dict_get k background = Some v -> truthy v = false ->
              dict_get k background' = Some v.
Proof.
  induction subjects as [|subject rest IH]; intros background w background' w' Hrun.
  - injection Hrun as -> ->. auto.
  - cbn [summarize_for] in Hrun. unfold bind at 1, lift, dict_getitem in Hrun.
    destruct (dict_get subject background) as [v|] eqn:Hget; [|discriminate].
    destruct v as [text|]; [|now apply IH in Hrun].
    destruct (truthy text) eqn:Htruthy; cbn [negb] in Hrun; [|now apply IH in Hrun].
    destruct (_ <=? _)%nat in Hrun; [injection Hrun as -> ->; auto|].
    apply inv_bind in Hrun as (summary & w1 & _ & Hrun).
    apply IH in Hrun as [Hkeys Hkeep]. split.
    + rewrite Hkeys. apply DictFacts.keys_set_present. congruence.
    + intros k v Hk Hfalsy. apply Hkeep; [|exact Hfalsy].
      rewrite DictFacts.get_set_ne; [exact Hk|].
      intros <-. rewrite Hget in Hk. injection Hk as <-.
      change (truthy text = false) in Hfalsy. congruence.
Qed.

(** X4.  When [summarize] returns, the background has the keys it had,
    in the same order, and every key whose text was absent or empty
    still holds that value: such topics are never summarized. *)
Theorem summarize_keeps_keys_and_empty_texts background w background' w' :
  summarize srv args background w = (Returns background', w') ->
  keys background' = keys background /\
  forall k v, dict_get k background = Some v -> truthy v = false ->
              dict_get k background' = Some v.
Proof. apply summarize_for_keeps. Qed.

Lemma gpt_counts_once prompt model_arg w :
  gpt_query_count (snd (gpt srv args prompt model_arg w)) <= gpt_query_count w + 1.
Proof.
  unfold gpt, memory_cache.
  destruct (gpt_cache w !! (prompt, model_arg)); [simpl; lia|].
  rewrite gpt_body_eq. destruct (25 <? String.length prompt)%nat; [|simpl; lia].
  cbv zeta. destruct (ChatCompletion_create srv _ _ _); simpl; lia.
Qed.

Lemma summarize_for_counts subjects : forall background w,
  gpt_query_count (snd (summarize_for srv args subjects background w))
  <= gpt_query_count w + length subjects.
Proof.
  induction subjects as [|subject rest IH]; intros background w; [simpl; lia|].
  cbn [summarize_for length]. unfold bind at 1, lift, dict_getitem.
  destruct (dict_get subject background) as [v|]; [|simpl; lia].
  assert (Hrest : forall b,
            gpt_query_count (snd (summarize_for srv args rest b w))
            <= gpt_query_count w + S (length rest)).
  { intros b. specialize (IH b w). lia. }
  destruct v as [text|]; [|apply Hrest].
  destruct (truthy text); cbn [negb]; [|apply Hrest].
  destruct (_ <=? _)%nat; [simpl; lia|].
  unfold bind. pose proof (gpt_counts_once (summarize_prompt subject text) None w) as Hgpt.
  destruct (gpt srv args _ None w) as [[summary| |] w1]; simpl in *; try lia.
  specialize (IH (dict_set subject (Some summary) background) w1). lia.
Qed.

(** X5.  Whatever [summarize] comes to, it raises the counter by at most
    the number of topics: each topic is summarized at most once. *)
Theorem summarize_query_budget background w :
  gpt_query_count (snd (summarize srv args background w))
  <= gpt_query_count w + length (keys background).
Proof. apply summarize_for_counts. Qed.

End SummarizeAgain.

(** ** [gpt]: failed requests and the key of the store *)

Section GptAgain.

Context (srv : services) (args : arguments).

(** X6.  A call of [gpt] that misses the store with an acceptable prompt
    and whose completion request raises: the exception goes to the
    caller, the counter has been raised by one all the same, the request
    is on record, and nothing is stored, so that the same call will ask
    again. *)
Theorem gpt_failed_request_is_counted prompt model_arg w e :
  gpt_cache w !! (prompt, model_arg) = None ->
  25 < String.length prompt ->
  ChatCompletion_create srv (completions w)
    (py_or model_arg (model_str (model args))) prompt = Raises e ->
  exists w',
    gpt srv args prompt model_arg w = (Raises e, w') /\
    gpt_query_count w' = gpt_query_count w + 1 /\
    completions w'
    = (completions w ++ [(py_or model_arg (model_str (model args)), prompt)])%list /\
    gpt_cache w' !! (prompt, model_arg) = None.
Proof.
  intros Hmiss Hlen Hraise. unfold gpt.
  rewrite (memory_cache_miss gpt_cache set_gpt_cache) by exact Hmiss.
  rewrite gpt_body_eq. apply Nat.ltb_lt in Hlen. rewrite Hlen. cbv zeta.
  rewrite Hraise. eexists. split; [reflexivity|]. simpl. auto.
Qed.

(** X7.  The store of [gpt] is keyed by the prompt and the [model]
    argument only.  Once a call has returned a completion, the same call
    returns it from the store whatever the collaborators and whatever
    [args] are then, also when [args.model], which the body would use
    for a call without [model], names another model. *)
Theorem gpt_store_ignores_active_model prompt model_arg w v w1 :
  gpt srv args prompt model_arg w = (Returns v, w1) ->
  forall srv' args',
    gpt srv' args' prompt model_arg w1 = (Returns v, w1).
Proof.
  intros Hcall srv' args'. apply gpt_returns_stored in Hcall.
  unfold gpt. now apply (memory_cache_hit gpt_cache set_gpt_cache).
Qed.

End GptAgain.

(** ** [fetch_url_and_extract_info]: what it returns and what it stores *)

Section FetchAgain.

Context (srv : services).

(** X8.  [fetch_url_and_extract_info] never raises: whatever the request
    or the parsing of the page does, the call returns a pair (or gets no
    answer). *)
Theorem fetch_never_raises url w e :
  fst (fetch_url_and_extract_info srv url w) <> Raises e.
Proof.
  unfold fetch_url_and_extract_info, memory_cache.
  destruct (fetch_cache w !! url); [discriminate|].
  rewrite fetch_body_eq. cbv zeta.
  destruct (requests_get srv url) as [response| |]; try discriminate.
  destruct (status_code response =? 200)%nat; [|discriminate].
  destruct (title (content response)); discriminate.
Qed.

(** X9.  A request that fails (it raises, or its status is not 200) for
    a page that is not in the store makes the call return [(None, None)]
    after one error line, and that pair is stored: the same call then
    returns [(None, None)] without a request, whatever the page would
    answer by then. *)
Theorem fetch_failure_is_stored url w :
  fetch_cache w !! url = None ->
  fetch_fails srv url ->
  exists w' msg,
    fetch_url_and_extract_info srv url w = (Returns (None, None), w') /\
    stdout w' = (stdout w ++ [Printed ("Error fetching " ++ url ++ ": " ++ msg)])%list /\
    fetches w' = (fetches w ++ [url])%list /\
    forall srv', fetch_url_and_extract_info srv' url w' = (Returns (None, None), w').
Proof.
  intros Hmiss Hfails. unfold fetch_url_and_extract_info at 1.
  rewrite (memory_cache_miss fetch_cache set_fetch_cache) by exact Hmiss.
  rewrite fetch_body_eq. cbv zeta.
  assert (Hhit : forall w0 srv',
            fetch_cache w0 !! url = Some (None, None) ->
            fetch_url_and_extract_info srv' url w0 = (Returns (None, None), w0)).
  { intros w0 srv' Hstored.
    now apply (memory_cache_hit fetch_cache set_fetch_cache). }
  destruct Hfails as [[e ->]|(response & -> & Hstatus)].
  - eexists. exists (exn_str e). split; [reflexivity|]. simpl.
    split; [reflexivity|]. split; [reflexivity|].
    intros srv'. apply Hhit. simpl. apply lookup_insert_eq.
  - apply Nat.eqb_neq in Hstatus. rewrite Hstatus.
    eexists. exists (Str.of_nat (status_code response)). split; [reflexivity|]. simpl.
    split; [reflexivity|]. split; [reflexivity|].
    intros srv'. apply Hhit. simpl. apply lookup_insert_eq.
Qed.


End FetchAgain.

(** ** [ddg_top_hit]: no hit, and what a hit holds *)

Section ResolverAgain.

Context (srv : services) (args : arguments).

Import Evolution.

Lemma for_no_text results : forall w,
  Forall (no_text srv w) results ->
  exists w',
    ddg_top_hit_for srv args results w = (Returns None, w') /\
    ddg_top_hit_cache w' = ddg_top_hit_cache w.
Proof.
  induction results as [|x rest IH]; intros w Hall.
  - exists w. split; reflexivity.
  - apply Forall_cons in Hall as [(t & c & Hx & Hfalsy) Hall].
    destruct (for_turn srv args x rest w t c Hx) as (w1 & Hrun & Hstable & _ & Hd1).
    rewrite Hfalsy in Hrun.
    destruct (IH w1) as (w' & Hrun' & Hd).
    + eapply Forall_impl; [exact Hall|].
      intros y (ty & cy & Hy & Hfy). exists ty, cy. now rewrite Hstable.
    + exists w'. split; [now rewrite Hrun | congruence].
Qed.

(** X11.  For a topic that is not in the store and whose search gives a
    list of results that are all without text, [ddg_top_hit] returns
    [None], and [None] is stored for the topic: the same call then
    returns [None] and leaves the world as it is, whatever the search
    and the pages would give by then. *)
Theorem ddg_top_hit_none_is_stored topic results w :
  ddg_top_hit_cache w !! topic = None ->
  ddg srv topic = Some results ->
  Forall (no_text srv w) results ->
  exists w',
    ddg_top_hit srv args topic w = (Returns None, w') /\
    forall srv' args', ddg_top_hit srv' args' topic w' = (Returns None, w').
Proof.
  intros Hmiss Hresults Hall. unfold ddg_top_hit at 1.
  rewrite (memory_cache_miss ddg_top_hit_cache set_ddg_top_hit_cache) by exact Hmiss.
  unfold ddg_top_hit_body. unfold bind at 1.
  destruct (when_print_frame (verbose args) ("Search DDG for: " ++ topic) w)
    as (w0 & -> & Hc & _ & _).
  unfold bind at 1. rewrite Hresults.
  set (w1 := set_searches_done _ w0).
  destruct (for_no_text results w1) as (w' & -> & _).
  - eapply Forall_impl; [exact Hall|].
    intros y (ty & cy & Hy & Hfy). exists ty, cy.
    rewrite <- Hy. split; [|exact Hfy]. apply fetch_result_frame. exact Hc.
  - eexists. split; [reflexivity|]. intros srv' args'.
    apply (memory_cache_hit ddg_top_hit_cache set_ddg_top_hit_cache).
    simpl. apply lookup_insert_eq.
Qed.

(** X17.  For a topic that is not in the store and for which the search
    gives [None] instead of a list, the loop over the results raises
    [TypeError] inside [ddg_top_hit]: the search is on record, nothing
    is stored for the topic, and the loop of [main] over the topics ends
    with that exception. *)
Theorem ddg_top_hit_raises_without_results topic w :
  ddg_top_hit_cache w !! topic = None ->
  ddg srv topic = None ->
  exists w',
    ddg_top_hit srv args topic w
    = (Raises (TypeError "'NoneType' object is not iterable"), w') /\
    searches_done w' = (searches_done w ++ [topic])%list /\
    ddg_top_hit_cache w' !! topic = None /\
    forall rest background sources,
      resolve_for srv args (topic :: rest) background sources w
      = (Raises (TypeError "'NoneType' object is not iterable"), w').
Proof.
  intros Hmiss Hnothing.
  assert (Hrun : exists w',
            ddg_top_hit srv args topic w
            = (Raises (TypeError "'NoneType' object is not iterable"), w') /\
            searches_done w' = (searches_done w ++ [topic])%list /\
            ddg_top_hit_cache w' !! topic = None).
  { unfold ddg_top_hit.
    rewrite (memory_cache_miss ddg_top_hit_cache set_ddg_top_hit_cache) by exact Hmiss.
    unfold ddg_top_hit_body, bind. rewrite Hnothing.
    destruct (verbose args); simpl; eexists; (split; [reflexivity|]); simpl; auto. }
  destruct Hrun as (w' & Hrun & Hlog & Hstore). exists w'.
  split; [exact Hrun|]. split; [exact Hlog|]. split; [exact Hstore|].
  intros rest background sources. cbn [resolve_for]. unfold bind at 1.
  now rewrite Hrun.
Qed.

Lemma for_returns_text results : forall w h t c w',
  ddg_top_hit_for srv args results w = (Returns (Some (h, t, c)), w') ->
  truthy c = true /\ In h (map href results).
Proof.
  induction results as [|x rest IH]; intros w h t c w' Hrun; [discriminate|].
  cbn [ddg_top_hit_for] in Hrun.
  apply inv_bind in Hrun as ([] & w0 & _ & Hrun).
  apply inv_bind in Hrun as (info & w1 & _ & Hrun).
  destruct (truthy (snd info)) eqn:Htruthy.
  - injection Hrun as <- <- <- <-. split; [exact Htruthy | now left].
  - apply IH in Hrun as [Hc Hin]. split; [exact Hc | now right].
Qed.

(** X12.  When [ddg_top_hit] returns a hit for a topic that was not in
    the store, the hit's text is not empty and its origin is the [href]
    of one of the results the search gave for the topic. *)
Theorem ddg_top_hit_returns_text topic w h t c w' :
  ddg_top_hit_cache w !! topic = None ->
  ddg_top_hit srv args topic w = (Returns (Some (h, t, c)), w') ->
  truthy c = true /\
  exists results, ddg srv topic = Some results /\ In h (map href results).
Proof.
  intros Hmiss. unfold ddg_top_hit.
  rewrite (memory_cache_miss ddg_top_hit_cache set_ddg_top_hit_cache) by exact Hmiss.
  destruct (ddg_top_hit_body srv args topic w) as [[v| |] w0] eqn:Hbody;
    try discriminate.
  intros [= -> _]. unfold ddg_top_hit_body in Hbody.
  apply inv_bind in Hbody as ([] & w1 & _ & Hbody).
  apply inv_bind in Hbody as (results & w2 & Hsearch & Hbody).
  injection Hsearch as <- _.
  destruct (ddg srv topic) as [results|]; [|discriminate].
  apply for_returns_text in Hbody as [Hc Hin]. eauto.
Qed.

End ResolverAgain.

(** ** The loop over the topics and the whole run *)

Module DictKeys.

Lemma in_keys_set k' k v d :
  In k' (keys (dict_set k v d)) <-> k' = k \/ In k' (keys d).
Proof.
  induction d as [|[k0 v0] d IH]; simpl.
  - intuition.
  - destruct (DictFacts.eqb_eq_dec k k0) as [[-> E]|[Hk E]]; rewrite E; simpl.
    + intuition.
    + rewrite IH. intuition.
Qed.

Lemma nodup_keys_set k v d :
  List.NoDup (keys d) -> List.NoDup (keys (dict_set k v d)).
Proof.
  induction d as [|[k0 v0] d IH]; simpl; intros Hnodup.
  - constructor; [intros [] | constructor].
  - destruct (DictFacts.eqb_eq_dec k k0) as [[-> E]|[Hk E]]; rewrite E; simpl;
      [exact Hnodup|].
    apply List.NoDup_cons_iff in Hnodup as [Hfresh Hnodup].
    constructor; [|now apply IH].
    rewrite in_keys_set. intros [->|Hin]; [congruence | contradiction].
Qed.

Lemma length_keys_set k v d :
  length (keys (dict_set k v d)) <= S (length (keys d)).
Proof.
  induction d as [|[k0 v0] d IH]; simpl; [lia|].
  destruct (String.eqb k k0); simpl; lia.
Qed.

End DictKeys.

Section MainAgain.

Context (srv : services) (args : arguments).

Import Evolution.

Lemma resolve_for_background searches : forall background sources w bs w',
  resolve_for srv args searches background sources w = (Returns bs, w') ->
  length (snd bs) = length sources + length searches /\
  (forall k, In k (keys (fst bs)) <-> In k (keys background) \/ In k searches) /\
  (List.NoDup (keys background) -> List.NoDup (keys (fst bs))) /\
  length (keys (fst bs)) <= length (keys background) + length searches.
Proof.
  induction searches as [|search rest IH]; intros background sources w bs w' Hrun.
  - injection Hrun as <- <-. simpl. repeat split; auto; try lia.
    intros [H|[]]. exact H.
  - cbn [resolve_for] in Hrun.
    apply inv_bind in Hrun as (h & w1 & _ & Hrun).
    apply inv_bind in Hrun as (t & w2 & _ & Hrun).
    apply IH in Hrun as (Hlen & Hkeys & Hnodup & Hsize).
    rewrite length_app in Hlen. simpl in Hlen.
    pose proof (DictKeys.length_keys_set search (snd t) background) as Hset.
    split; [simpl; lia|]. split; [|split].
    + intros k. rewrite Hkeys, DictKeys.in_keys_set. simpl. intuition.
    + intros Hn. apply Hnodup. now apply DictKeys.nodup_keys_set.
    + simpl. lia.
Qed.

(** X13.  When the loop of [main] over the topics returns, the Sources
    list has one entry for each topic, and the keys of the background
    are exactly the topics, each once: a topic that comes twice has two
    entries in the Sources list and one key in the background. *)
Theorem resolve_for_entries_and_keys searches w background sources w' :
  resolve_for srv args searches [] [] w = (Returns (background, sources), w') ->
  length sources = length searches /\
  (forall k, In k (keys background) <-> In k searches) /\
  List.NoDup (keys background).
Proof.
  intros Hrun. apply resolve_for_background in Hrun as (Hlen & Hkeys & Hnodup & _).
  simpl in *. split; [exact Hlen|]. split.
  - intros k. rewrite Hkeys. intuition.
  - apply Hnodup. constructor.
Qed.

Abbreviation same_count := (same gpt_query_count).

Lemma same_count_fetch url :
  respects same_count (fetch_url_and_extract_info srv url).
Proof.
  assert (Hbody : respects same_count (fetch_body srv url)).
  { intros w. destruct (fetch_body_snd srv url w) as [out ->]. reflexivity. }
  apply respects_memory_cache; [apply _ | exact Hbody |].
  intros w v w' _ Hrun. specialize (Hbody w). rewrite Hrun in Hbody. exact Hbody.
Qed.

Lemma same_count_ddg_top_hit topic :
  respects same_count (ddg_top_hit srv args topic).
Proof.
  assert (Hbody : respects same_count (ddg_top_hit_body srv args topic)).
  { apply respects_ddg_top_hit_body;
      [apply _ | | apply same_count_fetch | reflexivity].
    intros text. now apply same_print. }
  apply respects_memory_cache; [apply _ | exact Hbody |].
  intros w v w' _ Hrun. specialize (Hbody w). rewrite Hrun in Hbody. exact Hbody.
Qed.

Lemma same_count_resolve_for searches : forall background sources,
  respects same_count (resolve_for srv args searches background sources).
Proof.
  induction searches as [|search rest IH]; intros background sources; simpl.
  - apply respects_ret; apply _.
  - apply respects_bind; [apply _ | apply same_count_ddg_top_hit |].
    intros h. apply respects_bind; [apply _ | | intros t; apply IH].
    destruct h; [apply respects_ret | apply respects_raise]; apply _.
Qed.

Lemma same_count_when_pprint b label background :
  respects same_count (when b (pprint_sizes label background)).
Proof.
  apply respects_when; [apply _|].
  apply respects_bind; [apply _ | apply respects_lift; apply _ |].
  intros l w. reflexivity.
Qed.

Lemma run_same_count {A} (c : M A) w r w' :
  respects same_count c -> c w = (r, w') -> gpt_query_count w' = gpt_query_count w.
Proof. intros Hc Hrun. specialize (Hc w). now rewrite Hrun in Hc. Qed.

Lemma run_gpt_counts_once prompt model_arg w r w' :
  gpt srv args prompt model_arg w = (r, w') ->
  gpt_query_count w' <= gpt_query_count w + 1.
Proof.
  intros Hrun. pose proof (gpt_counts_once srv args prompt model_arg w) as C.
  now rewrite Hrun in C.
Qed.

Lemma run_summarize_counts background w r w' :
  summarize srv args background w = (r, w') ->
  gpt_query_count w' <= gpt_query_count w + length (keys background).
Proof.
  intros Hrun. pose proof (summarize_for_counts srv args (keys background) background w) as C.
  fold (summarize srv args background) in C. now rewrite Hrun in C.
Qed.

(** X14.  In a run of [main] that returns, the counter has been raised
    by at most two plus the number of topics parsed from the text of the
    run's first completion: one query for the topics, at most one
    summarization for each topic, one query for the answer.  With three
    topics that is at most five queries. *)
Theorem main_query_budget fuel w w' :
  main srv args fuel w = (Returns tt, w') ->
  exists search_text w1 searches,
    gpt srv args (search_prompt srv args) None w = (Returns search_text, w1) /\
    json_loads srv search_text = Returns searches /\
    gpt_query_count w' <= gpt_query_count w + 2 + length searches.
Proof.
  unfold main. intros Hrun.
  apply inv_bind in Hrun as (search_text & w1 & Hgpt1 & Hrun).
  apply inv_bind in Hrun as (searches & w1' & Hjson & Hrun).
  injection Hjson as Hjson <-.
  apply inv_bind in Hrun as (bs & w2 & Hresolve & Hrun).
  apply inv_bind in Hrun as ([] & w2a & Hp1 & Hrun).
  apply inv_bind in Hrun as (background1 & w2b & Hshorten & Hrun).
  injection Hshorten as Hshorten <-.
  apply inv_bind in Hrun as ([] & w2c & Hp2 & Hrun).
  apply inv_bind in Hrun as (background2 & w2d & Hsummarize & Hrun).
  apply inv_bind in Hrun as ([] & w2e & Hp3 & Hrun).
  apply inv_bind in Hrun as (answer & w3 & Hgpt2 & Hrun).
  exists search_text, w1, searches. split; [exact Hgpt1|]. split; [exact Hjson|].
  apply run_gpt_counts_once in Hgpt1, Hgpt2.
  pose proof (run_same_count _ _ _ _ (same_count_resolve_for searches [] []) Hresolve) as C2.
  apply resolve_for_background in Hresolve as (_ & _ & _ & Hsize).
  apply run_same_count in Hp1, Hp2, Hp3; try apply same_count_when_pprint.
  apply run_summarize_counts in Hsummarize.
  rewrite (shorten_for_keys _ _ _ _ _ _ Hshorten) in Hsummarize.
  unfold bind, print in Hrun. simpl in Hrun. rewrite print_sources_eq in Hrun.
  injection Hrun as <-. simpl in *. lia.
Qed.

(** X15.  Whatever a run of [main] comes to (it returns, raises or gets
    no answer), the three stores have only gained entries, the counter
    has been raised by exactly the number of completion requests made,
    and every request made had a prompt of more than 25 characters. *)
Theorem main_keeps_stores_and_counts fuel w :
  let w' := snd (main srv args fuel w) in
  gpt_cache w ⊆ gpt_cache w' /\
  ddg_top_hit_cache w ⊆ ddg_top_hit_cache w' /\
  fetch_cache w ⊆ fetch_cache w' /\
  exists l,
    completions w' = (completions w ++ l)%list /\
    gpt_query_count w' = gpt_query_count w + length l /\
    Forall (fun r => 25 < String.length (snd r)) l.
Proof.
  intros w'. destruct (preserves_main srv args fuel w) as [G D F C _ _ _ _].
  auto.
Qed.

(** X16.  A failure while the topics are obtained ends the run at once:
    when the first completion raises, or when its text is refused by
    [json.loads], [main] raises that exception and the world is as the
    completion call left it: no search, no fetch, no output. *)
Theorem main_propagates_topic_failure fuel w :
  (forall e w1,
     gpt srv args (search_prompt srv args) None w = (Raises e, w1) ->
     main srv args fuel w = (Raises e, w1)) /\
  (forall search_text e w1,
     gpt srv args (search_prompt srv args) None w = (Returns search_text, w1) ->
     json_loads srv search_text = Raises e ->
     main srv args fuel w = (Raises e, w1)).
Proof.
  unfold search_prompt. split.
  - intros e w1 Hgpt. unfold main. cbv zeta. unfold bind at 1. now rewrite Hgpt.
  - intros search_text e w1 Hgpt Hjson. unfold main. cbv zeta.
    unfold bind at 1. rewrite Hgpt. unfold bind at 1, lift. now rewrite Hjson.
Qed.

End MainAgain.

(** ** The further properties on the stand-ins *)

Lemma shorten_leaves_fitting_texts_witness :
  shorten (Demo.services []) Demo.args 1 Cases.mixed_texts = Returns Cases.mixed_texts.
Proof.
  apply (shorten_leaves_fitting_texts (Demo.services []) Demo.args 0 Cases.mixed_texts).
  intros k. unfold Cases.mixed_texts. cbn [dict_get].
  destruct (String.eqb k "A").
  - intros _. apply Nat.leb_le. vm_compute. reflexivity.
  - destruct (String.eqb k "B"); [exact I|].
    destruct (String.eqb k "C"); [discriminate | exact I].
Defined.

Lemma shorten_idempotent_witness :
  shorten (Demo.services []) Demo.args 1
    [("A", Some (Demo.times "a" 1890)); ("B", None)]
  = Returns [("A", Some (Demo.times "a" 1890)); ("B", None)].
Proof.
  apply (shorten_idempotent (Demo.services []) Demo.args 2101 0
           [("A", Some (Demo.times "a" 2100)); ("B", None)]).
  vm_compute. reflexivity.
Defined.

Lemma summarize_leaves_fitting_background_witness :
  summarize (Demo.services []) Demo.args Cases.mixed_texts Demo.fresh
  = (Returns Cases.mixed_texts, Demo.fresh).
Proof.
  apply (summarize_leaves_fitting_background (Demo.services []) Demo.args).
  apply Nat.leb_le. vm_compute. reflexivity.
Defined.

Lemma summarize_keeps_keys_and_empty_texts_witness :
  keys Cases.long_and_empty_summarized = keys Cases.long_and_empty /\
  forall k v, dict_get k Cases.long_and_empty = Some v -> truthy v = false ->
              dict_get k Cases.long_and_empty_summarized = Some v.
Proof.
  apply (summarize_keeps_keys_and_empty_texts (Demo.services []) Demo.args
           Cases.long_and_empty Demo.fresh Cases.long_and_empty_summarized
           (snd (summarize (Demo.services []) Demo.args Cases.long_and_empty Demo.fresh))).
  apply Runs.run_eq. vm_compute. reflexivity.
Defined.

Lemma gpt_failed_request_is_counted_witness :
  let prompt := summarize_prompt "A" "abcdefgh" in
  exists w',
    gpt Cases.no_completion Demo.args prompt None Demo.fresh
    = (Raises (ExternalError "rate limit reached"), w') /\
    gpt_query_count w' = gpt_query_count Demo.fresh + 1 /\
    completions w' = (completions Demo.fresh ++ [("gpt-3.5-turbo", prompt)])%list /\
    gpt_cache w' !! (prompt, None) = None.
Proof.
  intros prompt.
  apply (gpt_failed_request_is_counted Cases.no_completion Demo.args prompt None
           Demo.fresh (ExternalError "rate limit reached")).
  - reflexivity.
  - apply Nat.ltb_lt. vm_compute. reflexivity.
  - reflexivity.
Defined.

Lemma gpt_store_ignores_active_model_witness :
  let prompt := summarize_prompt "A" "abcdefgh" in
  let w1 := snd (gpt (Demo.services []) Demo.args prompt None Demo.fresh) in
  model Demo.args <> model Cases.args_gpt4 /\
  gpt Cases.no_completion Cases.args_gpt4 prompt None w1 = (Returns "abcd", w1).
Proof.
  intros prompt w1. subst w1. split; [discriminate|].
  apply (gpt_store_ignores_active_model (Demo.services []) Demo.args prompt None
           Demo.fresh "abcd").
  apply Runs.run_eq. vm_compute. reflexivity.
Defined.

Lemma fetch_failure_is_stored_witness :
  let srv := Demo.services [] in
  let url := "http://a/2" in
  exists w' msg,
    fetch_url_and_extract_info srv url Demo.fresh = (Returns (None, None), w') /\
    stdout w' = (stdout Demo.fresh ++ [Printed ("Error fetching " ++ url ++ ": " ++ msg)])%list /\
    fetches w' = (fetches Demo.fresh ++ [url])%list /\
    forall srv', fetch_url_and_extract_info srv' url w' = (Returns (None, None), w').
Proof.
  intros srv url.
  apply (fetch_failure_is_stored srv url Demo.fresh).
  - reflexivity.
  - right. eexists. split; [reflexivity|]. simpl. lia.
Defined.


Lemma ddg_top_hit_none_is_stored_witness :
  exists w',
    ddg_top_hit (Demo.services []) Demo.args "B" Demo.fresh = (Returns None, w') /\
    forall srv' args', ddg_top_hit srv' args' "B" w' = (Returns None, w').
Proof.
  apply (ddg_top_hit_none_is_stored (Demo.services []) Demo.args "B"
           [ {| href := "http://a/1" |}; {| href := "http://a/2" |} ] Demo.fresh).
  - reflexivity.
  - reflexivity.
  - repeat constructor; exists None, None; split; reflexivity.
Defined.

Lemma ddg_top_hit_raises_without_results_witness :
  exists w',
    ddg_top_hit (Demo.services []) Demo.args "Z" Demo.fresh
    = (Raises (TypeError "'NoneType' object is not iterable"), w') /\
    searches_done w' = (searches_done Demo.fresh ++ ["Z"])%list /\
    ddg_top_hit_cache w' !! "Z" = None /\
    forall rest background sources,
      resolve_for (Demo.services []) Demo.args ("Z" :: rest) background sources Demo.fresh
      = (Raises (TypeError "'NoneType' object is not iterable"), w').
Proof.
  apply (ddg_top_hit_raises_without_results (Demo.services []) Demo.args "Z" Demo.fresh);
    reflexivity.
Defined.

Lemma ddg_top_hit_returns_text_witness :
  truthy (Some "third page") = true /\
  exists results,
    ddg (Demo.services []) "A" = Some results /\ In "http://a/3" (map href results).
Proof.
  apply (ddg_top_hit_returns_text (Demo.services []) Demo.args "A" Demo.fresh
           "http://a/3" (Some "Third") (Some "third page")
           (snd (ddg_top_hit (Demo.services []) Demo.args "A" Demo.fresh))).
  - reflexivity.
  - apply Runs.run_eq. vm_compute. reflexivity.
Defined.

Lemma resolve_for_entries_and_keys_witness :
  let background := [("A", Some "third page"); ("C", Some "untitled page")] in
  let sources := [("http://a/3", Some "Third"); ("http://c/1", None);
                  ("http://a/3", Some "Third")] in
  length sources = length ["A"; "C"; "A"] /\
  (forall k, In k (keys background) <-> In k ["A"; "C"; "A"]) /\
  List.NoDup (keys background).
Proof.
  intros background sources.
  apply (resolve_for_entries_and_keys (Demo.services []) Demo.args ["A"; "C"; "A"]
           Demo.fresh background sources
           (snd (resolve_for (Demo.services []) Demo.args ["A"; "C"; "A"] [] []
                   Demo.fresh))).
  apply Runs.run_eq. vm_compute. reflexivity.
Defined.

(** Two pages of 3000 characters: each is cut to 1968 characters, both
    topics are summarized, and the run makes four queries. *)
Example main_summarizing_run :
  gpt_query_count (snd (main Cases.long_pages Demo.args 10 Demo.fresh)) = 4.
Proof. vm_compute. reflexivity. Qed.

Lemma main_query_budget_witness :
  let srv := Cases.long_pages in
  let w' := snd (main srv Demo.args 10 Demo.fresh) in
  exists search_text w1 searches,
    gpt srv Demo.args (search_prompt srv Demo.args) None Demo.fresh
    = (Returns search_text, w1) /\
    json_loads srv search_text = Returns searches /\
    gpt_query_count w' <= gpt_query_count Demo.fresh + 2 + length searches.
Proof.
  intros srv w'. subst w'.
  apply (main_query_budget srv Demo.args 10 Demo.fresh).
  apply Runs.run_eq. vm_compute. reflexivity.
Defined.

Lemma main_propagates_topic_failure_witness :
  let e := ExternalError "Expecting value: line 1 column 1 (char 0)" in
  let w1 := snd (gpt Cases.no_json Demo.args (search_prompt Cases.no_json Demo.args)
                   None Demo.fresh) in
  main Cases.no_json Demo.args 10 Demo.fresh = (Raises e, w1).
Proof.
  intros e w1. subst w1.
  eapply (proj2 (main_propagates_topic_failure Cases.no_json Demo.args 10 Demo.fresh)).
  - apply Runs.run_eq. vm_compute. reflexivity.
  - reflexivity.
Defined.
